(** * pgdbtemplate-pq: the lib/pq connection provider and the template workflow

    The development has two parts.

    - [Module Go] and [Module Pq] embed the package [pgdbtemplatepq]
      (connection_provider.go and options.go).  The package talks to Go's
      [database/sql]; every call it makes is an event of type [sqlE], a
      method is a finite program over these events, and a [handler] plays
      the part of [database/sql] and of the server behind it.
    - [Module Manager] is a model of the template/clone lifecycle manager
      the provider plugs into.  The manager lives in the module
      [github.com/andrei-polukhin/pgdbtemplate], of which this repository
      holds callers only (benchmark_test.go, README.md). *)

From Stdlib Require Import ZArith Ascii String.
From stdpp Require Import base tactics option list strings gmap pretty.

Local Open Scope string_scope.
Local Open Scope list_scope.

(** ** Go values *)

Module Go.

(** Go's [error] interface values.  The sentinels are package-level
    variables compared by identity; [Wrap msg cause] is the value built by
    [fmt.Errorf(msg + ": %w", cause)]. *)
Inductive error : Type :=
| ErrNoRows                     (* sql.ErrNoRows *)
| ErrDBClosed                   (* "sql: database is closed" *)
| Canceled                      (* context.Canceled *)
| DeadlineExceeded              (* context.DeadlineExceeded *)
| DriverError (msg : string)    (* whatever the driver or the server reports *)
| Wrap (msg : string) (cause : error).

#[global] Instance error_eq_dec : EqDecision error.
Proof. solve_decision. Defined.

(** [err.Error()]. *)
Fixpoint Error (e : error) : string :=
  match e with
  | ErrNoRows => "sql: no rows in result set"
  | ErrDBClosed => "sql: database is closed"
  | Canceled => "context canceled"
  | DeadlineExceeded => "context deadline exceeded"
  | DriverError msg => msg
  | Wrap msg cause => msg +:+ ": " +:+ Error cause
  end.

(** [errors.Unwrap]. *)
Definition Unwrap (e : error) : option error :=
  match e with
  | Wrap _ cause => Some cause
  | _ => None
  end.

(** [errors.Is(e, target)]: [target] is [e] or is reached by unwrapping. *)
Fixpoint Is (e target : error) : bool :=
  bool_decide (e = target) ||
  match e with
  | Wrap _ cause => Is cause target
  | _ => false
  end.

(** A [context.Context], as far as a callee can observe it: [ctx.Err()]. *)
Inductive Context : Type :=
| Background
| WithCancel (cancelled : bool)
| WithDeadline (expired : bool).

Definition Err (ctx : Context) : option error :=
  match ctx with
  | Background => None
  | WithCancel true => Some Canceled
  | WithCancel false => None
  | WithDeadline true => Some DeadlineExceeded
  | WithDeadline false => None
  end.

(** Arguments of a query ([...any]) and scanned columns. *)
Inductive value : Type :=
| VNil
| VInt (n : Z)
| VString (s : string)
| VBool (b : bool).

(** A [sql.Result]. *)
Record Result : Type := { LastInsertId : Z; RowsAffected : Z }.

(** A [*sql.Row]: the deferred error and the columns of the first row. *)
Record Row : Type := { row_err : option error; row_columns : list value }.

(** A [*sql.DB] is a reference to a pool; two calls of [sql.Open] give two
    references. *)
Definition sqlDB : Type := nat.

(** The calls into [database/sql] made by the package, indexed by what
    they return.  [(T, error)] results are [T + error]: the code reads the
    first component only when the error is nil. *)
Inductive sqlE : Type -> Type :=
| sql_Open (driverName dataSourceName : string) : sqlE (sqlDB + error)
| DB_PingContext (db : sqlDB) (ctx : Context) : sqlE (option error)
| DB_Close (db : sqlDB) : sqlE (option error)
| DB_ExecContext (db : sqlDB) (ctx : Context) (query : string)
    (args : list value) : sqlE (Result + error)
| DB_QueryRowContext (db : sqlDB) (ctx : Context) (query : string)
    (args : list value) : sqlE Row
| DB_SetMaxOpenConns (db : sqlDB) (n : Z) : sqlE unit
| DB_SetMaxIdleConns (db : sqlDB) (n : Z) : sqlE unit
| DB_SetConnMaxLifetime (db : sqlDB) (d : Z) : sqlE unit
| DB_SetConnMaxIdleTime (db : sqlDB) (d : Z) : sqlE unit.

(** A Go function body: it returns, panics, or calls [database/sql] and
    goes on with the answer. *)
Inductive prog (A : Type) : Type :=
| Ret (a : A)
| Panic (msg : string)
| Vis {X : Type} (e : sqlE X) (k : X -> prog A).
Arguments Ret {A} a.
Arguments Panic {A} msg.
Arguments Vis {A X} e k.

Fixpoint bind {A B : Type} (p : prog A) (f : A -> prog B) : prog B :=
  match p with
  | Ret a => f a
  | Panic msg => Panic msg
  | Vis e k => Vis e (fun x => bind (k x) f)
  end.

Definition trigger {X : Type} (e : sqlE X) : prog X := Vis e Ret.

(** The runtime panic of a nil function call or a nil pointer dereference. *)
Definition nil_dereference : string :=
  "runtime error: invalid memory address or nil pointer dereference".

(** Calling a value of function type: a nil function panics. *)
Definition call {A B : Type} (f : option (A -> B)) (a : A) : prog B :=
  match f with
  | Some g => Ret (g a)
  | None => Panic nil_dereference
  end.

(** One answered call. *)
Record entry : Type := Entry { entry_type : Type;
                               entry_call : sqlE entry_type;
                               entry_answer : entry_type }.
Arguments Entry {entry_type} entry_call entry_answer.

(** How a call of a function ends. *)
Inductive outcome (A : Type) : Type :=
| Returned (a : A)
| Panicked (msg : string).
Arguments Returned {A} a.
Arguments Panicked {A} msg.

(** [database/sql] with the driver and the server behind it: a state and
    an answer to every call. *)
Record handler (S : Type) : Type :=
  Handler { handle : forall X : Type, sqlE X -> S -> X * S }.
Arguments Handler {S} handle.
Arguments handle {S} h {X} e s.

(** Running a program: the outcome, the final state and the calls made,
    oldest first. *)
Fixpoint run {S A : Type} (h : handler S) (p : prog A) (s : S)
  : outcome A * S * list entry :=
  match p with
  | Ret a => (Returned a, s, [])
  | Panic msg => (Panicked msg, s, [])
  | Vis e k =>
      let '(x, s1) := handle h e s in
      let '(o, s2, tr) := run h (k x) s1 in
      (o, s2, Entry e x :: tr)
  end.

(** No path of the program panics. *)
Inductive panic_free {A : Type} : prog A -> Prop :=
| panic_free_Ret a : panic_free (Ret a)
| panic_free_Vis X (e : sqlE X) k :
    (forall x, panic_free (k x)) -> panic_free (Vis e k).

End Go.

(** Sequencing is written with the monad notations [x ← p; q] and
    [p;; q]. *)
#[global] Instance prog_ret : MRet Go.prog := @Go.Ret.
#[global] Instance prog_bind : MBind Go.prog :=
  fun A B f p => Go.bind p f.

(** ** The package pgdbtemplatepq *)

Module Pq.
Import Go.

(** options.go: a [DatabaseConnectionOption] is a function on a [*sql.DB].
    A value of function type may be nil. *)
Definition DatabaseConnectionOption : Type := option (sqlDB -> prog unit).

Definition WithMaxOpenConns (n : Z) : DatabaseConnectionOption :=
  Some (fun db => trigger (DB_SetMaxOpenConns db n)).

Definition WithMaxIdleConns (n : Z) : DatabaseConnectionOption :=
  Some (fun db => trigger (DB_SetMaxIdleConns db n)).

(** A [time.Duration] is a number of nanoseconds. *)
Definition WithConnMaxLifetime (d : Z) : DatabaseConnectionOption :=
  Some (fun db => trigger (DB_SetConnMaxLifetime db d)).

Definition WithConnMaxIdleTime (d : Z) : DatabaseConnectionOption :=
  Some (fun db => trigger (DB_SetConnMaxIdleTime db d)).

(** connection_provider.go: [type DatabaseConnection struct { *sql.DB }]. *)
Record DatabaseConnection : Type := { DB : sqlDB }.

#[global] Instance DatabaseConnection_eq_dec : EqDecision DatabaseConnection.
Proof. solve_decision. Defined.

Definition ExecContext (c : DatabaseConnection) (ctx : Context)
    (query : string) (args : list value) : prog (Result + error) :=
  trigger (DB_ExecContext (DB c) ctx query args).

Definition QueryRowContext (c : DatabaseConnection) (ctx : Context)
    (query : string) (args : list value) : prog Row :=
  trigger (DB_QueryRowContext (DB c) ctx query args).

Definition Close (c : DatabaseConnection) : prog (option error) :=
  trigger (DB_Close (DB c)).

Record ConnectionProvider : Type := {
  connStringFunc : option (string -> string);
  options : list DatabaseConnectionOption
}.

(** [*ConnectionProvider]: [None] is the nil pointer. *)
Definition NewConnectionProvider (connStringFunc : option (string -> string))
    (options : list DatabaseConnectionOption) : option ConnectionProvider :=
  Some {| connStringFunc := connStringFunc; options := options |}.

(** [for _, option := range p.options { option(db) }] *)
Fixpoint range_options (opts : list DatabaseConnectionOption) (db : sqlDB)
  : prog unit :=
  match opts with
  | [] => Ret tt
  | option :: rest =>
      match option with
      | Some f => f db
      | None => Panic nil_dereference
      end;;
      range_options rest db
  end.

(** The pair [(pgdbtemplate.DatabaseConnection, error)]; [None] is nil. *)
Definition Connect (p : option ConnectionProvider) (ctx : Context)
    (databaseName : string)
  : prog (option DatabaseConnection * option error) :=
  match p with
  | None => Panic nil_dereference
  | Some p =>
      connString ← call (connStringFunc p) databaseName;
      r ← trigger (sql_Open "postgres" connString);
      match r with
      | inr err => Ret (None, Some (Wrap "failed to open database" err))
      | inl db =>
          range_options (options p) db;;
          perr ← trigger (DB_PingContext db ctx);
          match perr with
          | Some err =>
              trigger (DB_Close db);;
              Ret (None, Some (Wrap "failed to ping database" err))
          | None => Ret (Some {| DB := db |}, None)
          end
      end
  end.

(** The receiver is unnamed and never read. *)
Definition GetNoRowsSentinel (_ : option ConnectionProvider) : error :=
  ErrNoRows.

(** *** Vocabulary of the statements about [Connect] *)

(** An option that can be applied: it is not nil and no path of it
    panics.  The four options of options.go are of this kind. *)
Definition returns_option (o : DatabaseConnectionOption) : Prop :=
  exists f, o = Some f /\ forall db, panic_free (f db).

(** [database/sql] refuses to ping under a context that is done
    ([PingContext] returns [ctx.Err()] before it asks for a connection). *)
Definition honours_cancellation {S : Type} (h : handler S) : Prop :=
  forall db ctx s,
    is_Some (Err ctx) -> is_Some (handle h (DB_PingContext db ctx) s).1.

(** The three ways a run of [Connect] on the data source [dsn] ends, with
    the answers of [database/sql] that lead there.  [pre] holds the calls
    made by the options. *)
Inductive Connect_run {S : Type} (h : handler S) (s : S) (dsn : string)
    (ctx : Context)
  : outcome (option DatabaseConnection * option error) * S * list entry
    -> Prop :=
| Connect_open_failed err s1 :
    handle h (sql_Open "postgres" dsn) s = (inr err, s1) ->
    Connect_run h s dsn ctx
      (Returned (None, Some (Wrap "failed to open database" err)), s1,
       [Entry (sql_Open "postgres" dsn) (inr err)])
| Connect_ping_failed db s1 pre s2 perr s3 cerr s4 :
    handle h (sql_Open "postgres" dsn) s = (inl db, s1) ->
    handle h (DB_PingContext db ctx) s2 = (Some perr, s3) ->
    handle h (DB_Close db) s3 = (cerr, s4) ->
    Connect_run h s dsn ctx
      (Returned (None, Some (Wrap "failed to ping database" perr)), s4,
       Entry (sql_Open "postgres" dsn) (inl db) :: pre ++
       [Entry (DB_PingContext db ctx) (Some perr); Entry (DB_Close db) cerr])
| Connect_live db s1 pre s2 s3 :
    handle h (sql_Open "postgres" dsn) s = (inl db, s1) ->
    handle h (DB_PingContext db ctx) s2 = (None, s3) ->
    Connect_run h s dsn ctx
      (Returned (Some {| DB := db |}, None), s3,
       Entry (sql_Open "postgres" dsn) (inl db) :: pre ++
       [Entry (DB_PingContext db ctx) None]).

End Pq.

(** ** A simulated [database/sql]

    One server, described by what it says to a data source name; pools are
    numbered in the order they are opened.  It is used to run the package
    on concrete inputs. *)

Module Sim.
Import Go.

Record server : Type := {
  rejects : string -> option error;   (* sql.Open fails on this name *)
  refuses : string -> option error    (* a ping to this name fails *)
}.

Record state : Type := {
  opened : list string;    (* data source name of pool 0, 1, ... *)
  closed : list sqlDB      (* pools on which Close was called *)
}.

Definition init : state := {| opened := []; closed := [] |}.

Definition is_closed (st : state) (db : sqlDB) : bool :=
  bool_decide (db ∈ closed st).

(** What a method that needs a connection says before reaching the
    server: a closed pool and a finished context are both refused. *)
Definition conn_error (st : state) (db : sqlDB) (ctx : Context)
  : option error :=
  if is_closed st db then Some ErrDBClosed else Err ctx.

Definition answer (srv : server) (X : Type) (e : sqlE X) (st : state)
  : X * state :=
  match e in sqlE X return X * state with
  | sql_Open _ dsn =>
      match rejects srv dsn with
      | Some err => (inr err, st)
      | None => (inl (length (opened st)),
                 {| opened := opened st ++ [dsn]; closed := closed st |})
      end
  | DB_PingContext db ctx =>
      match conn_error st db ctx with
      | Some err => (Some err, st)
      | None => (default None (refuses srv <$> opened st !! db), st)
      end
  | DB_Close db =>
      (None, {| opened := opened st; closed := db :: closed st |})
  | DB_ExecContext db ctx _ _ =>
      match conn_error st db ctx with
      | Some err => (inr err, st)
      | None => (inl {| LastInsertId := 0; RowsAffected := 0 |}, st)
      end
  | DB_QueryRowContext db ctx _ _ =>
      ({| row_err := conn_error st db ctx; row_columns := [VInt 1] |}, st)
  | DB_SetMaxOpenConns _ _ => (tt, st)
  | DB_SetMaxIdleConns _ _ => (tt, st)
  | DB_SetConnMaxLifetime _ _ => (tt, st)
  | DB_SetConnMaxIdleTime _ _ => (tt, st)
  end.

Definition sql (srv : server) : handler state := Handler (answer srv).

(** A server on localhost that knows the database [postgres] only. *)
Definition localhost : server := {|
  rejects := fun _ => None;
  refuses := fun dsn =>
    if bool_decide (dsn = "postgres://localhost/postgres") then None
    else Some (DriverError ("pq: no such database: " +:+ dsn))
|}.

(** No server at all, as in the tests that run without PostgreSQL. *)
Definition unreachable : server := {|
  rejects := fun _ => None;
  refuses := fun _ => Some (DriverError "dial tcp: connection refused")
|}.

(** [func(dbName string) string { return "postgres://localhost/" + dbName }] *)
Definition connStringFunc (dbName : string) : string :=
  "postgres://localhost/" +:+ dbName.

(** The provider of the test "Connection provider with options", with two
    of its options. *)
Definition pooled_provider : Pq.ConnectionProvider := {|
  Pq.connStringFunc := Some connStringFunc;
  Pq.options := [Pq.WithMaxOpenConns 25; Pq.WithMaxIdleConns 10]
|}.

End Sim.

(** ** The template/clone manager *)

Module Manager.

(** The template/clone lifecycle manager ([pgdbtemplate.TemplateManager]
    with [NewTemplateManager], [Initialize], [CreateTestDatabase],
    [DropTestDatabase] and [Cleanup]) is not part of this repository, which
    only calls it.  The definitions of this module follow sections 3 to 7
    of the specification; the signatures follow the calls in
    benchmark_test.go. *)

(** *** The database engine *)

(** Modelled from the spec: what the manager, which is missing from the
    repository, asks of its collaborators (section 6): connections from
    the connection provider, the DDL it sends over the admin connection
    (CREATE DATABASE with or without TEMPLATE, DROP DATABASE, the
    statement that terminates backends) and the migration runner. *)
Inductive op : Type :=
| OpenConnection (db : string)
| CreateDatabase (db : string) (template : option string)
| RunMigrations (db : string)
| TerminateBackends (db : string)
| DropDatabase (db : string).

#[global] Instance op_eq_dec : EqDecision op.
Proof. solve_decision. Defined.

(** An engine error: the operation that failed, which names the database,
    and what the engine said. *)
Record failure : Type := { failed_op : op; cause : string }.

#[global] Instance failure_eq_dec : EqDecision failure.
Proof. solve_decision. Defined.

(** Modelled from the spec: the server the missing manager works on, as
    far as sections 4 and 8 speak of it: the databases that exist, and what
    was asked of it so far, oldest first, with the answers. *)
Record Engine : Type := {
  databases : gset string;
  log : list (op * option string)
}.

Definition already_exists : string := "database already exists".
Definition does_not_exist : string := "database does not exist".

(** Modelled from the spec: what the engine refuses by itself.  A second
    CREATE DATABASE with the same name fails (section 4.1); a database
    that does not exist cannot be connected to, migrated, copied or
    dropped. *)
Definition refusal (dbs : gset string) (o : op) : option string :=
  match o with
  | OpenConnection db | RunMigrations db | DropDatabase db =>
      if decide (db ∈ dbs) then None else Some does_not_exist
  | CreateDatabase db template =>
      if decide (db ∈ dbs) then Some already_exists
      else match template with
           | Some t => if decide (t ∈ dbs) then None else Some does_not_exist
           | None => None
           end
  | TerminateBackends _ => None
  end.

Definition effect (o : op) (dbs : gset string) : gset string :=
  match o with
  | CreateDatabase db _ => {[db]} ∪ dbs
  | DropDatabase db => dbs ∖ {[db]}
  | _ => dbs
  end.

Section Operations.

(** Failures that come from outside (a transient error, a lock, a session
    that cannot be terminated, a context that is done): the operation
    fails with the given cause and changes nothing. *)
Variable faulty : Go.Context -> op -> option string.

(** Modelled from the spec: one operation of the missing manager on the
    engine, under the context of the caller.  It fails when it is made to
    fail from outside or when the engine refuses it; the failure names the
    operation (section 7). *)
Definition exec (ctx : Go.Context) (o : op) (e : Engine)
  : option failure * Engine :=
  let answer :=
    match faulty ctx o with
    | Some c => Some c
    | None => refusal (databases e) o
    end in
  match answer with
  | Some c =>
      (Some {| failed_op := o; cause := c |},
       {| databases := databases e; log := log e ++ [(o, Some c)] |})
  | None =>
      (None,
       {| databases := effect o (databases e); log := log e ++ [(o, None)] |})
  end.

(** Operations in sequence, up to the first that fails. *)
Fixpoint exec_all (ctx : Go.Context) (os : list op) (e : Engine)
  : option failure * Engine :=
  match os with
  | [] => (None, e)
  | o :: os =>
      match exec ctx o e with
      | (Some f, e1) => (Some f, e1)
      | (None, e1) => exec_all ctx os e1
      end
  end.

(** *** Configuration and state *)

(** Modelled from the spec: the TemplateConfig of the missing manager
    (section 3), with the fields [Config] has in benchmark_test.go.  The
    connection provider and the migration runner it also refers to are
    behind the engine. *)
Record TemplateConfig : Type := {
  AdminDBName : string;
  TemplateName : string;
  TestDBPrefix : string
}.

(** Modelled from the spec: the ManagerState of the missing manager
    (section 3): the live-set, the counter used for naming and the
    initialized flag. *)
Record ManagerState : Type := {
  initialized : bool;
  live : gset string;     (* the live-set *)
  counter : N
}.

(** Modelled from the spec: the errors of the missing manager
    (section 7).  An engine error carries the operation and with it the
    database name; the aggregate of a cleanup names the databases that
    could not be dropped. *)
Inductive error : Type :=
| ConfigurationError (reason : string)
| NotInitializedError
| AlreadyInitializedError
| EngineError (f : failure)
| PartialCleanupError (failures : list (string * failure)).

#[global] Instance manager_error_eq_dec : EqDecision error.
Proof. solve_decision. Defined.

(** Modelled from the spec: the invariant of a TemplateConfig (section 3),
    checked by the missing constructor: the template and the admin
    database have distinct names and the prefix is not empty. *)
Definition invalid (cfg : TemplateConfig) : option string :=
  if decide (TestDBPrefix cfg = "") then Some "empty test database prefix"
  else if decide (TemplateName cfg = AdminDBName cfg)
       then Some "template and admin database have the same name"
       else None.

(** Modelled from the spec: the default of the admin database name, the
    conventional system database (section 6). *)
Definition with_defaults (cfg : TemplateConfig) : TemplateConfig :=
  {| AdminDBName :=
       if decide (AdminDBName cfg = "") then "postgres" else AdminDBName cfg;
     TemplateName := TemplateName cfg;
     TestDBPrefix := TestDBPrefix cfg |}.

(** Modelled from the spec: [NewTemplateManager], missing from the
    repository.  An invalid configuration is a ConfigurationError at
    construction (section 7); the state is created empty (section 3). *)
Definition NewTemplateManager (cfg : TemplateConfig)
  : (TemplateConfig * ManagerState) + error :=
  let cfg := with_defaults cfg in
  match invalid cfg with
  | Some reason => inr (ConfigurationError reason)
  | None => inl (cfg, {| initialized := false; live := ∅; counter := 0 |})
  end.

Variable cfg : TemplateConfig.

(** *** Initialize *)

(** Modelled from the spec: [Initialize], missing from the repository
    (section 4.1).  It fails with AlreadyInitialized when the manager is
    initialized; otherwise it creates the template database over an admin
    connection, connects to it and runs the migrations once.  A name that
    already exists is reported as a configuration error; after a failure
    nothing is undone and the manager stays uninitialized. *)
Definition Initialize (ctx : Go.Context) (st : ManagerState * Engine)
  : option error * (ManagerState * Engine) :=
  let '(m, e) := st in
  if initialized m then (Some AlreadyInitializedError, st)
  else
    match exec_all ctx [OpenConnection (AdminDBName cfg);
                        CreateDatabase (TemplateName cfg) None;
                        OpenConnection (TemplateName cfg);
                        RunMigrations (TemplateName cfg)] e with
    | (Some f, e1) =>
        (Some (if decide (f = {| failed_op := CreateDatabase (TemplateName cfg) None;
                                 cause := already_exists |})
               then ConfigurationError already_exists
               else EngineError f),
         (m, e1))
    | (None, e1) =>
        (None,
         ({| initialized := true; live := live m; counter := counter m |}, e1))
    end.

(** *** CreateTestDatabase *)

(** Modelled from the spec: the name of a test database (section 4.2),
    which the missing manager builds as prefix + counter + nonce.  The
    count is written in decimal and an underscore sets it apart from the
    nonce, as in the names benchmark_test.go builds for itself. *)
Definition testDBName (prefix : string) (count : N) (nonce : string) : string :=
  prefix +:+ pretty count +:+ "_" +:+ nonce.

(** Modelled from the spec: a call of the missing [CreateTestDatabase] in
    progress (section 5).  Between two of its steps other callers may
    run. *)
Inductive call : Type :=
| Start (ctx : Go.Context) (nonce : string)
| Named (ctx : Go.Context) (name : string)
| Created (ctx : Go.Context) (name : string)
| Recorded (ctx : Go.Context) (name : string)
| Done (r : string + error).

(** Modelled from the spec: one step of [CreateTestDatabase], missing
    from the repository (sections 4.2 and 5).  Under the mutex the call
    fails with NotInitialized or takes the next count and makes its name;
    off the mutex it sends CREATE DATABASE ... TEMPLATE over an admin
    connection of its own; under the mutex again it records the name in
    the live-set, once the server has confirmed; then it connects to the
    new database. *)
Definition step (c : call) (st : ManagerState * Engine)
  : call * (ManagerState * Engine) :=
  let '(m, e) := st in
  match c with
  | Start ctx nonce =>
      if initialized m then
        let n := (counter m + 1)%N in
        (Named ctx (testDBName (TestDBPrefix cfg) n nonce),
         ({| initialized := initialized m; live := live m; counter := n |}, e))
      else (Done (inr NotInitializedError), st)
  | Named ctx name =>
      match exec_all ctx [OpenConnection (AdminDBName cfg);
                          CreateDatabase name (Some (TemplateName cfg))] e with
      | (Some f, e1) => (Done (inr (EngineError f)), (m, e1))
      | (None, e1) => (Created ctx name, (m, e1))
      end
  | Created ctx name =>
      (Recorded ctx name,
       ({| initialized := initialized m; live := {[name]} ∪ live m;
           counter := counter m |}, e))
  | Recorded ctx name =>
      match exec ctx (OpenConnection name) e with
      | (Some f, e1) => (Done (inr (EngineError f)), (m, e1))
      | (None, e1) => (Done (inl name), (m, e1))
      end
  | Done r => (Done r, st)
  end.

(** Modelled from the spec: [CreateTestDatabase], missing from the
    repository (section 4.2), when the call runs alone: the name is made
    from the next count, the database is created from the template, the
    name is recorded, and the connection to the new database is returned
    with the name.  The connection is the one to the database named. *)
Definition CreateTestDatabase (ctx : Go.Context) (nonce : string)
    (st : ManagerState * Engine)
  : (string + error) * (ManagerState * Engine) :=
  let '(m, e) := st in
  if initialized m then
    let n := (counter m + 1)%N in
    let name := testDBName (TestDBPrefix cfg) n nonce in
    let m1 := {| initialized := initialized m; live := live m; counter := n |} in
    match exec_all ctx [OpenConnection (AdminDBName cfg);
                        CreateDatabase name (Some (TemplateName cfg))] e with
    | (Some f, e1) => (inr (EngineError f), (m1, e1))
    | (None, e1) =>
        let m2 := {| initialized := initialized m1; live := {[name]} ∪ live m1;
                     counter := counter m1 |} in
        match exec ctx (OpenConnection name) e1 with
        | (Some f, e2) => (inr (EngineError f), (m2, e2))
        | (None, e2) => (inl name, (m2, e2))
        end
    end
  else (inr NotInitializedError, st).

(** *** DropTestDatabase *)

(** Modelled from the spec: how the missing manager drops one database
    (sections 4.3 and 5): over an admin connection of its own, the
    sessions bound to the database are terminated, then DROP DATABASE is
    sent. *)
Definition drop_ops (name : string) : list op :=
  [OpenConnection (AdminDBName cfg); TerminateBackends name; DropDatabase name].

Definition drop_database (ctx : Go.Context) (name : string) (e : Engine)
  : option failure * Engine :=
  exec_all ctx (drop_ops name) e.

(** Modelled from the spec: [DropTestDatabase], missing from the
    repository (section 4.3).  A name that is not in the live-set is
    success and nothing is done.  Otherwise, in one critical section, the
    name leaves the live-set and the drop is attempted; what the engine
    says is returned. *)
Definition DropTestDatabase (ctx : Go.Context) (name : string)
    (st : ManagerState * Engine)
  : option error * (ManagerState * Engine) :=
  let '(m, e) := st in
  if decide (name ∈ live m) then
    let '(r, e1) := drop_database ctx name e in
    (EngineError <$> r,
     ({| initialized := initialized m; live := live m ∖ {[name]};
         counter := counter m |}, e1))
  else (None, st).

(** *** Cleanup *)

(** Modelled from the spec: the batch of drops of the missing [Cleanup]
    (section 4.4): it goes on after a failure, and the failures are
    collected with the name of the database. *)
Fixpoint drop_each (ctx : Go.Context) (names : list string) (e : Engine)
  : list (string * failure) * Engine :=
  match names with
  | [] => ([], e)
  | name :: names =>
      let '(r, e1) := drop_database ctx name e in
      let '(failures, e2) := drop_each ctx names e1 in
      (match r with
       | Some f => (name, f) :: failures
       | None => failures
       end, e2)
  end.

(** Modelled from the spec: [Cleanup], missing from the repository
    (section 4.4).  On an uninitialized manager it does nothing and
    succeeds.  Otherwise it drops every database of the live-set, then
    the template, clears the live-set, marks the manager uninitialized,
    and returns the aggregate of the failures, if any. *)
Definition Cleanup (ctx : Go.Context) (st : ManagerState * Engine)
  : option error * (ManagerState * Engine) :=
  let '(m, e) := st in
  if initialized m then
    let '(failures, e1) :=
      drop_each ctx (elements (live m) ++ [TemplateName cfg]) e in
    (match failures with
     | [] => None
     | _ => Some (PartialCleanupError failures)
     end,
     ({| initialized := false; live := ∅; counter := counter m |}, e1))
  else (None, st).

(** *** Callers *)

(** Modelled from the spec: the requests to the missing manager that run
    under the mutex from start to end (sections 4.3 and 5). *)
Inductive request : Type :=
| ReqInitialize (ctx : Go.Context)
| ReqDropTestDatabase (ctx : Go.Context) (name : string)
| ReqCleanup (ctx : Go.Context).

Definition serve (r : request) (st : ManagerState * Engine)
  : ManagerState * Engine :=
  match r with
  | ReqInitialize ctx => (Initialize ctx st).2
  | ReqDropTestDatabase ctx name => (DropTestDatabase ctx name st).2
  | ReqCleanup ctx => (Cleanup ctx st).2
  end.

(** Modelled from the spec: callers running together on one manager
    (section 5): the calls of [CreateTestDatabase] in progress and the
    state they share. *)
Record System : Type := {
  calls : list call;
  shared : ManagerState * Engine
}.

(** Modelled from the spec: what can happen next when callers run in
    parallel (section 5): call [i] takes its next step, or another request
    is served. *)
Inductive action : Type :=
| Advance (i : nat)
| Serve (r : request).

Definition act (a : action) (sys : System) : System :=
  match a with
  | Advance i =>
      match calls sys !! i with
      | Some c =>
          let '(c1, st1) := step c (shared sys) in
          {| calls := <[i := c1]> (calls sys); shared := st1 |}
      | None => sys
      end
  | Serve r => {| calls := calls sys; shared := serve r (shared sys) |}
  end.

Definition schedule (acts : list action) (sys : System) : System :=
  foldl (fun sys a => act a sys) sys acts.

(** The name a call holds, if it has one. *)
Definition name_of (c : call) : option string :=
  match c with
  | Start _ _ => None
  | Named _ name | Created _ name | Recorded _ name => Some name
  | Done (inl name) => Some name
  | Done (inr _) => None
  end.

(** The name a call has returned. *)
Definition returned (c : call) : option string :=
  match c with
  | Done (inl name) => Some name
  | _ => None
  end.

Definition returned_names (sys : System) : list string :=
  omap returned (calls sys).

(** Calls that have not started yet, one for each context and nonce. *)
Definition spawn (args : list (Go.Context * string))
    (st : ManagerState * Engine) : System :=
  {| calls := (fun a => Start a.1 a.2) <$> args; shared := st |}.

Definition is_initialize (a : action) : bool :=
  match a with
  | Serve (ReqInitialize _) => true
  | _ => false
  end.

Definition is_cleanup (a : action) : bool :=
  match a with
  | Serve (ReqCleanup _) => true
  | _ => false
  end.

(** *** Vocabulary of the statements about failures *)

(** The first operation of a list that is made to fail from outside. *)
Fixpoint external_failure (ctx : Go.Context) (os : list op) : option failure :=
  match os with
  | [] => None
  | o :: os =>
      match faulty ctx o with
      | Some c => Some {| failed_op := o; cause := c |}
      | None => external_failure ctx os
      end
  end.

(** The failure that keeps an existing database from being dropped. *)
Definition drop_fault (ctx : Go.Context) (name : string) : option failure :=
  external_failure ctx (drop_ops name).

(** What [Cleanup] has to drop, in the order it does, and the failures it
    has to report when every one of them exists. *)
Definition to_drop (m : ManagerState) : list string :=
  elements (live m) ++ [TemplateName cfg].

Definition drop_faults (ctx : Go.Context) (names : list string)
  : list (string * failure) :=
  omap (fun n => pair n <$> drop_fault ctx n) names.

(** The log of the drops on an engine that lets them all through. *)
Definition dropped_log (names : list string) : list (op * option string) :=
  names ≫= fun n => (fun o => (o, None)) <$> drop_ops n.

(** A state in which the databases the manager knows of exist and none
    of them is the admin database. *)
Record well_formed (m : ManagerState) (e : Engine) : Prop := {
  wf_names : TemplateName cfg ≠ AdminDBName cfg;
  wf_admin : AdminDBName cfg ∈ databases e;
  wf_template : TemplateName cfg ∈ databases e;
  wf_live : live m ⊆ databases e;
  wf_live_admin : AdminDBName cfg ∉ live m;
  wf_live_template : TemplateName cfg ∉ live m
}.

(** *** Vocabulary of the statements about names *)

(** [n] is a name made from the prefix and a count in [(c0, c]]. *)
Definition generated (c0 c : N) (n : string) : Prop :=
  exists k nonce,
    (c0 < k <= c)%N /\ n = testDBName (TestDBPrefix cfg) k nonce.

(** What holds of callers running together, from the state [m0] on: the
    counter has not gone back, the names held by the calls are generated
    and no two calls hold the same, and the live-set has grown by
    generated names only. *)
Record consistent (m0 : ManagerState) (sys : System) : Prop := {
  counter_mono : (counter m0 <= counter (shared sys).1)%N;
  names_generated : forall i c n,
    calls sys !! i = Some c -> name_of c = Some n ->
    generated (counter m0) (counter (shared sys).1) n;
  names_distinct : forall i j ci cj n,
    calls sys !! i = Some ci -> calls sys !! j = Some cj ->
    name_of ci = Some n -> name_of cj = Some n -> i = j;
  live_generated : forall n,
    n ∈ live (shared sys).1 ->
    n ∈ live m0 \/ generated (counter m0) (counter (shared sys).1) n
}.

End Operations.

(** The character [c] does not occur in the string. *)
Fixpoint free_of (c : ascii) (s : string) : Prop :=
  match s with
  | EmptyString => True
  | String a s => a ≠ c /\ free_of c s
  end.

End Manager.

(** ** A scenario for the manager model *)

Module Scenario.
Import Manager.

(** The configuration of the benchmarks: the admin database is left to
    its default. *)
Definition config : TemplateConfig := {|
  AdminDBName := "";
  TemplateName := "bench_template";
  TestDBPrefix := "bench_test_"
|}.

Definition cfg : TemplateConfig := with_defaults config.

Definition fresh : ManagerState :=
  {| initialized := false; live := ∅; counter := 0 |}.

(** A server with the system database only. *)
Definition server : Engine := {| databases := {["postgres"]}; log := [] |}.

(** An engine that lets every operation through. *)
Definition reliable : Go.Context -> op -> option string := fun _ _ => None.

(** An engine on which one database cannot be dropped. *)
Definition held (name : string) : Go.Context -> op -> option string :=
  fun _ o =>
    if decide (o = DropDatabase name)
    then Some "database is being accessed by other users"
    else None.

(** The manager after [Initialize] and five calls of
    [CreateTestDatabase]. *)
Definition five : ManagerState * Engine :=
  ({| initialized := true;
      live := {["bench_test_1_0"; "bench_test_2_0"; "bench_test_3_0";
                "bench_test_4_0"; "bench_test_5_0"]};
      counter := 5 |},
   {| databases := {["postgres"; "bench_template";
                     "bench_test_1_0"; "bench_test_2_0"; "bench_test_3_0";
                     "bench_test_4_0"; "bench_test_5_0"]};
      log := [] |}).

(** The manager after [Initialize], with nothing created yet. *)
Definition ready : ManagerState * Engine :=
  ({| initialized := true; live := ∅; counter := 0 |},
   {| databases := {["postgres"; "bench_template"]}; log := [] |}).

(** Three callers that read the same clock value, and a scheduler that
    serves [Initialize] and then interleaves their steps. *)
Definition three_callers : list (Go.Context * string) :=
  [(Go.Background, "0"); (Go.Background, "0"); (Go.Background, "0")].

Definition interleaved : list action :=
  Serve (ReqInitialize Go.Background) ::
  (Advance <$> [2; 0; 1; 1; 0; 2; 2; 1; 0; 0; 1; 2]).

End Scenario.

(** ** Options built by options.go *)

Module Builtin.
Import Go Pq.

(** What an option of options.go sets: the four constructors with their
    argument ([int] and [time.Duration] are 64-bit integers). *)
Inductive setting : Type :=
| MaxOpenConns (n : Z)
| MaxIdleConns (n : Z)
| ConnMaxLifetime (d : Z)
| ConnMaxIdleTime (d : Z).

(** The option the constructor of options.go returns. *)
Definition option_of (c : setting) : DatabaseConnectionOption :=
  match c with
  | MaxOpenConns n => WithMaxOpenConns n
  | MaxIdleConns n => WithMaxIdleConns n
  | ConnMaxLifetime d => WithConnMaxLifetime d
  | ConnMaxIdleTime d => WithConnMaxIdleTime d
  end.

(** The method of [*sql.DB] the body of that option calls. *)
Definition setter (c : setting) (db : sqlDB) : sqlE unit :=
  match c with
  | MaxOpenConns n => DB_SetMaxOpenConns db n
  | MaxIdleConns n => DB_SetMaxIdleConns db n
  | ConnMaxLifetime d => DB_SetConnMaxLifetime db d
  | ConnMaxIdleTime d => DB_SetConnMaxIdleTime db d
  end.

(** The calls of the setters on one pool, in the order of the list, and
    the state [database/sql] is in after them. *)
Definition applied (cs : list setting) (db : sqlDB) : list entry :=
  (fun c => Entry (setter c db) tt) <$> cs.

Definition settled {S : Type} (h : handler S) (cs : list setting)
    (db : sqlDB) (s : S) : S :=
  foldl (fun s c => (handle h (setter c db) s).2) s cs.

End Builtin.

(** ** The helpers of benchmark_test.go *)

Module Bench.

(** The anonymous struct of [allMigrations]. *)
Record migration : Type := { filename : string; content : string }.

Definition allMigrations : list migration := [
  {| filename := "001_create_users_table.sql";
     content := "CREATE TABLE users (
			id SERIAL PRIMARY KEY,
			email VARCHAR(255) UNIQUE NOT NULL,
			username VARCHAR(100) NOT NULL,
			password_hash VARCHAR(255) NOT NULL,
			first_name VARCHAR(100),
			last_name VARCHAR(100),
			is_active BOOLEAN DEFAULT true,
			created_at TIMESTAMP DEFAULT NOW(),
			updated_at TIMESTAMP DEFAULT NOW()
		);
		
		CREATE INDEX idx_users_email ON users(email);
		CREATE INDEX idx_users_username ON users(username);
		CREATE INDEX idx_users_created_at ON users(created_at);" |};
  {| filename := "002_create_posts_table.sql";
     content := "CREATE TABLE posts (
			id SERIAL PRIMARY KEY,
			user_id INTEGER NOT NULL REFERENCES users(id) ON DELETE CASCADE,
			title VARCHAR(255) NOT NULL,
			content TEXT,
			slug VARCHAR(255) UNIQUE NOT NULL,
			status VARCHAR(20) DEFAULT 'draft',
			published_at TIMESTAMP,
			created_at TIMESTAMP DEFAULT NOW(),
			updated_at TIMESTAMP DEFAULT NOW()
		);
		
		CREATE INDEX idx_posts_user_id ON posts(user_id);
		CREATE INDEX idx_posts_slug ON posts(slug);
		CREATE INDEX idx_posts_status ON posts(status);
		CREATE INDEX idx_posts_published_at ON posts(published_at);" |};
  {| filename := "003_create_comments_table.sql";
     content := "CREATE TABLE comments (
			id SERIAL PRIMARY KEY,
			post_id INTEGER NOT NULL REFERENCES posts(id) ON DELETE CASCADE,
			user_id INTEGER NOT NULL REFERENCES users(id) ON DELETE CASCADE,
			content TEXT NOT NULL,
			parent_id INTEGER REFERENCES comments(id) ON DELETE CASCADE,
			is_approved BOOLEAN DEFAULT false,
			created_at TIMESTAMP DEFAULT NOW(),
			updated_at TIMESTAMP DEFAULT NOW()
		);
		
		CREATE INDEX idx_comments_post_id ON comments(post_id);
		CREATE INDEX idx_comments_user_id ON comments(user_id);
		CREATE INDEX idx_comments_parent_id ON comments(parent_id);
		CREATE INDEX idx_comments_created_at ON comments(created_at);" |};
  {| filename := "004_create_tags_and_relations.sql";
     content := "CREATE TABLE tags (
			id SERIAL PRIMARY KEY,
			name VARCHAR(100) UNIQUE NOT NULL,
			slug VARCHAR(100) UNIQUE NOT NULL,
			description TEXT,
			created_at TIMESTAMP DEFAULT NOW()
		);
		
		CREATE TABLE post_tags (
			post_id INTEGER NOT NULL REFERENCES posts(id) ON DELETE CASCADE,
			tag_id INTEGER NOT NULL REFERENCES tags(id) ON DELETE CASCADE,
			PRIMARY KEY (post_id, tag_id)
		);
		
		CREATE INDEX idx_tags_name ON tags(name);
		CREATE INDEX idx_tags_slug ON tags(slug);
		CREATE INDEX idx_post_tags_post_id ON post_tags(post_id);
		CREATE INDEX idx_post_tags_tag_id ON post_tags(tag_id);" |};
  {| filename := "005_insert_sample_data.sql";
     content := "INSERT INTO users (email, username, password_hash, first_name, last_name) VALUES
			('admin@example.com', 'admin', 'hash1', 'Admin', 'User'),
			('john@example.com', 'john_doe', 'hash2', 'John', 'Doe'),
			('jane@example.com', 'jane_smith', 'hash3', 'Jane', 'Smith'),
			('bob@example.com', 'bob_wilson', 'hash4', 'Bob', 'Wilson'),
			('alice@example.com', 'alice_brown', 'hash5', 'Alice', 'Brown');
		
		INSERT INTO tags (name, slug, description) VALUES
			('Technology', 'technology', 'Posts about technology'),
			('Programming', 'programming', 'Programming tutorials and tips'),
			('Database', 'database', 'Database design and optimization'),
			('Web Development', 'web-development', 'Web development topics'),
			('DevOps', 'devops', 'DevOps and deployment topics');
		
		INSERT INTO posts (user_id, title, content, slug, status, published_at) VALUES
			(1, 'Welcome to Our Blog', 'This is our first post!', 'welcome-to-our-blog', 'published', NOW() - INTERVAL '10 days'),
			(2, 'Getting Started with Go', 'Go is a great language...', 'getting-started-with-go', 'published', NOW() - INTERVAL '5 days'),
			(3, 'Database Design Patterns', 'Learn about database patterns...', 'database-design-patterns', 'published', NOW() - INTERVAL '3 days'),
			(4, 'Modern Web Development', 'Web development has evolved...', 'modern-web-development', 'published', NOW() - INTERVAL '1 day'),
			(5, 'Draft Post', 'This is a draft post...', 'draft-post', 'draft', NULL);
		
		INSERT INTO post_tags (post_id, tag_id) VALUES
			(1, 1), (2, 1), (2, 2), (3, 3), (4, 4), (5, 1);
		
		INSERT INTO comments (post_id, user_id, content, is_approved) VALUES
			(1, 2, 'Great first post!', true),
			(1, 3, 'Looking forward to more content.', true),
			(2, 3, 'Very helpful tutorial, thanks!', true),
			(2, 4, 'Could you cover testing next?', true),
			(3, 2, 'Excellent explanation of the patterns.', true);" |}
].

Section CreateSampleMigrations.

(** [os.WriteFile(name, data, perm)] is outside the repository: a file
    system and what a write does to it. *)
Variable FS : Type.
Variable WriteFile : string -> string -> Z -> FS -> option Go.error * FS.

(** [for _, migration := range migrations { ... }]: the first error is
    returned.  The permission 0644 in octal is 420. *)
Fixpoint range_migrations (tempDir : string) (migrations : list migration)
    (fs : FS) : option Go.error * FS :=
  match migrations with
  | [] => (None, fs)
  | migration :: rest =>
      let filePath := tempDir +:+ "/" +:+ filename migration in
      match WriteFile filePath (content migration) 420 fs with
      | (Some err, fs1) => (Some err, fs1)
      | (None, fs1) => range_migrations tempDir rest fs1
      end
  end.

Definition createSampleMigrations (tempDir : string) (numTables : Z) (fs : FS)
  : option Go.error * FS :=
  let maxTables := Z.of_nat (length allMigrations) in
  let numTables := if (numTables >? maxTables)%Z then maxTables else numTables in
  let numTables := if (numTables <? 1)%Z then 1%Z else numTables in
  let migrations := take (Z.to_nat numTables) allMigrations in
  range_migrations tempDir migrations fs.

End CreateSampleMigrations.

(** A file system in memory: the content of every file.  A write replaces
    the content of the file, unless the path is one that cannot be
    written; the write then fails with an error and leaves the file as it
    was (a missing directory, a permission) or holding part of the data
    (a failure in the middle of the write). *)
Definition WriteFile (unwritable : string -> option (Go.error * option string))
    (name data : string) (perm : Z) (files : gmap string string)
  : option Go.error * gmap string string :=
  match unwritable name with
  | Some (err, leftover) =>
      (Some err,
       match leftover with
       | Some part => <[name := part]> files
       | None => files
       end)
  | None => (None, <[name := data]> files)
  end.

(** The number of files [createSampleMigrations] is to write. *)
Definition clamp (numTables : Z) : nat :=
  Z.to_nat (Z.max 1 (Z.min numTables 5)).

(** The path of a migration in the directory. *)
Definition path_of (tempDir : string) (m : migration) : string :=
  tempDir +:+ "/" +:+ filename m.

(** An [int64] after an overflow: the value modulo 2^64, between -2^63
    and 2^63 - 1. *)
Definition int64 (x : Z) : Z := ((x + 2 ^ 63) mod 2 ^ 64 - 2 ^ 63)%Z.

(** [atomic.AddInt64(addr, delta)]: the new value, which is stored and
    returned. *)
Definition AddInt64 (value delta : Z) : Z := int64 (value + delta).

(** [fmt.Sprintf("bench_trad_conc_%d_%d_%d", counter, timestamp,
    os.Getpid())]. *)
Definition concurrentDBName (counter timestamp pid : Z) : string :=
  "bench_trad_conc_" +:+ pretty counter +:+ "_" +:+ pretty timestamp
    +:+ "_" +:+ pretty pid.

(** The names made by the iterations of
    [BenchmarkConcurrentDatabaseCreation_Traditional], in the order in
    which their atomic increments of [concurrentDBCounter] take place;
    each iteration comes with the clock value and the process id it
    reads. *)
Fixpoint dbNames (concurrentDBCounter : Z) (reads : list (Z * Z))
  : list string :=
  match reads with
  | [] => []
  | (timestamp, pid) :: rest =>
      let counter := AddInt64 concurrentDBCounter 1 in
      concurrentDBName counter timestamp pid :: dbNames counter rest
  end.

(** [fmt.Sprintf("bench_bulk_trad_%d_%d_%d_%d", i, j,
    time.Now().UnixNano(), os.Getpid())], the name of database [j] of
    iteration [i] in [benchmarkTraditionalBulkCleanup]. *)
Definition bulkDBName (i j timestamp pid : Z) : string :=
  "bench_bulk_trad_" +:+ pretty i +:+ "_" +:+ pretty j +:+ "_"
    +:+ pretty timestamp +:+ "_" +:+ pretty pid.

(** A directory in which the third migration cannot be written. *)
Definition third_unwritable (path : string)
  : option (Go.error * option string) :=
  if decide (path = "/tmp/bench/003_create_comments_table.sql")
  then Some (Go.DriverError "open: permission denied", None)
  else None.

End Bench.

(** * Properties of the package *)

Module PqSpec.
Import Go Pq.

(** ** Running programs *)

Lemma run_bind {S A B : Type} (h : handler S) (p : prog A) (f : A -> prog B)
    (s : S) :
  run h (bind p f) s =
  match run h p s with
  | (Returned a, s1, tr1) =>
      let '(o, s2, tr2) := run h (f a) s1 in (o, s2, tr1 ++ tr2)
  | (Panicked msg, s1, tr1) => (Panicked msg, s1, tr1)
  end.
Proof.
  revert s. induction p as [a|msg|X e k IH]; intros s; simpl.
  - by destruct (run h (f a) s) as [[o s2] tr2].
  - done.
  - destruct (handle h e s) as [x s1]. rewrite IH.
    destruct (run h (k x) s1) as [[[a|msg] s2] tr1]; [|done].
    by destruct (run h (f a) s2) as [[o s3] tr2].
Qed.

Lemma run_trigger {S X : Type} (h : handler S) (e : sqlE X) (s : S) :
  run h (trigger e) s =
  (Returned (handle h e s).1, (handle h e s).2, [Entry e (handle h e s).1]).
Proof. unfold trigger. simpl. by destruct (handle h e s). Qed.

Lemma panic_free_returns {S A : Type} (h : handler S) (p : prog A) (s : S) :
  panic_free p -> exists a s' tr, run h p s = (Returned a, s', tr).
Proof.
  intros Hp. revert s. induction Hp as [a|X e k _ IH]; intros s; simpl.
  - by eexists _, _, _.
  - destruct (handle h e s) as [x s1].
    destruct (IH x s1) as (a & s2 & tr & ->). by eexists _, _, _.
Qed.

Lemma range_options_returns {S : Type} (h : handler S) opts db (s : S) :
  Forall returns_option opts ->
  exists s' tr, run h (range_options opts db) s = (Returned tt, s', tr).
Proof.
  intros Hopts. revert s.
  induction Hopts as [|o opts (f & -> & Hf) _ IH]; intros s; simpl.
  - by eexists _, _.
  - unfold mbind, prog_bind. rewrite run_bind.
    destruct (panic_free_returns h (f db) s (Hf db)) as ([] & s1 & tr1 & ->).
    destruct (IH s1) as (s2 & tr2 & ->). by eexists _, _.
Qed.

Lemma builtin_options_return n :
  returns_option (WithMaxOpenConns n) /\ returns_option (WithMaxIdleConns n) /\
  returns_option (WithConnMaxLifetime n) /\ returns_option (WithConnMaxIdleTime n).
Proof.
  repeat split; eexists; (split; [reflexivity|]); intros db;
    apply panic_free_Vis; intros []; apply panic_free_Ret.
Qed.

(** Every run of [Connect] on a provider that has a connection-string
    function and options that return is one of the three. *)
Lemma Connect_runs {S : Type} (h : handler S) (s : S) p f ctx name :
  connStringFunc p = Some f ->
  Forall returns_option (options p) ->
  Connect_run h s (f name) ctx (run h (Connect (Some p) ctx name) s).
Proof.
  intros Hf Hopts. unfold Connect. rewrite Hf. simpl.
  destruct (handle h (sql_Open "postgres" (f name)) s) as [[db|err] s1] eqn:Hopen;
    simpl; [|by apply Connect_open_failed].
  unfold mbind, prog_bind. rewrite run_bind.
  destruct (range_options_returns h (options p) db s1 Hopts) as (s2 & pre & ->).
  simpl.
  destruct (handle h (DB_PingContext db ctx) s2) as [[perr|] s3] eqn:Hping; simpl.
  - destruct (handle h (DB_Close db) s3) as [cerr s4] eqn:Hclose. simpl.
    by eapply Connect_ping_failed.
  - by eapply Connect_live.
Qed.

(** ** The simulated runtime honours cancellation *)

Lemma sim_honours_cancellation srv : honours_cancellation (Sim.sql srv).
Proof.
  intros db ctx st Hdone. simpl. unfold Sim.conn_error.
  destruct (Sim.is_closed st db); [by eexists|].
  destruct Hdone as [e ->]. by eexists.
Qed.

Lemma pooled_provider_options :
  Forall returns_option (options Sim.pooled_provider).
Proof.
  repeat constructor;
    apply (builtin_options_return 25) || apply (builtin_options_return 10).
Qed.

(** ** C1 *)

(** C1.  On a provider that has a connection-string function and options
    that return, [Connect] returns for every database name, and it returns
    one of two pairs.  Either a connection and a nil error: the last call
    made is the ping of the pool just opened, under the caller's context,
    and it was answered with nil.  Or a nil connection and an error: when
    [sql.Open] failed the error wraps its error; when the ping failed the
    error is the ping error wrapped with the message "failed to ping
    database", and the last call made before returning is [Close] on the
    pool just opened. *)
Theorem Connect_connection_or_error {S : Type} (h : handler S) (s : S)
    (p : ConnectionProvider) (f : string -> string) (ctx : Context)
    (databaseName : string) :
  connStringFunc p = Some f ->
  Forall returns_option (options p) ->
  let open := sql_Open "postgres" (f databaseName) in
  exists r s' tr,
    run h (Connect (Some p) ctx databaseName) s = (Returned r, s', tr) /\
    ((exists db pre,
        r = (Some {| DB := db |}, None) /\
        tr = Entry open (inl db) :: pre ++
             [Entry (DB_PingContext db ctx) None])
     \/
     (exists err,
        r = (None, Some err) /\
        ((exists e,
            err = Wrap "failed to open database" e /\
            tr = [Entry open (inr e)])
         \/
         (exists db pre perr cerr,
            err = Wrap "failed to ping database" perr /\
            Unwrap err = Some perr /\
            Error err = "failed to ping database: " +:+ Error perr /\
            tr = Entry open (inl db) :: pre ++
                 [Entry (DB_PingContext db ctx) (Some perr);
                  Entry (DB_Close db) cerr])))).
Proof.
  intros Hf Hopts open.
  pose proof (Connect_runs h s p f ctx databaseName Hf Hopts) as Hrun.
  destruct Hrun as [err s1 _|db s1 pre s2 perr s3 cerr s4 _ _ _|db s1 pre s2 s3 _ _];
    eexists _, _, _; (split; [reflexivity|]).
  - right. eexists. split; [reflexivity|]. left. by eexists.
  - right. eexists. split; [reflexivity|]. right. by eexists _, _, _, _.
  - left. by eexists _, _.
Qed.

(** The test "Connection to nonexistent database". *)
Lemma Connect_connection_or_error_witness :
  connStringFunc Sim.pooled_provider = Some Sim.connStringFunc /\
  Forall returns_option (options Sim.pooled_provider) /\
  let open := sql_Open "postgres" (Sim.connStringFunc "nonexistent_db_12345") in
  exists r s' tr,
    run (Sim.sql Sim.localhost)
        (Connect (Some Sim.pooled_provider) Background "nonexistent_db_12345")
        Sim.init = (Returned r, s', tr) /\
    ((exists db pre,
        r = (Some {| DB := db |}, None) /\
        tr = Entry open (inl db) :: pre ++
             [Entry (DB_PingContext db Background) None])
     \/
     (exists err,
        r = (None, Some err) /\
        ((exists e,
            err = Wrap "failed to open database" e /\
            tr = [Entry open (inr e)])
         \/
         (exists db pre perr cerr,
            err = Wrap "failed to ping database" perr /\
            Unwrap err = Some perr /\
            Error err = "failed to ping database: " +:+ Error perr /\
            tr = Entry open (inl db) :: pre ++
                 [Entry (DB_PingContext db Background) (Some perr);
                  Entry (DB_Close db) cerr])))).
Proof.
  split; [reflexivity|]. split; [exact pooled_provider_options|].
  exact (Connect_connection_or_error (Sim.sql Sim.localhost) Sim.init
           Sim.pooled_provider Sim.connStringFunc Background
           "nonexistent_db_12345" eq_refl pooled_provider_options).
Defined.

(** ** C2 *)

(** C2.  On every provider, the nil pointer and a provider built without a
    connection-string function included, [GetNoRowsSentinel] returns
    [sql.ErrNoRows]: two calls return the same value, and an error is equal
    to the returned value exactly when it is [sql.ErrNoRows]. *)
Theorem GetNoRowsSentinel_is_ErrNoRows (p q : option ConnectionProvider) :
  GetNoRowsSentinel p = ErrNoRows /\
  GetNoRowsSentinel p = GetNoRowsSentinel q /\
  forall e : error,
    bool_decide (e = GetNoRowsSentinel p) = true <-> e = ErrNoRows.
Proof.
  repeat split; try done.
  - by intros ?%bool_decide_eq_true.
  - intros ->. by apply bool_decide_eq_true.
Qed.

(** ** C8 *)

(** C8.  [ExecContext], [QueryRowContext] and [Close] of the wrapper make
    one call each, the method of the same name on the wrapped pool with
    the arguments they were given, and return its answer unchanged. *)
Theorem DatabaseConnection_delegates {S : Type} (h : handler S) (s : S)
    (c : DatabaseConnection) (ctx : Context) (query : string)
    (args : list value) :
  (let a := handle h (DB_ExecContext (DB c) ctx query args) s in
   run h (ExecContext c ctx query args) s =
   (Returned a.1, a.2, [Entry (DB_ExecContext (DB c) ctx query args) a.1]))
  /\
  (let a := handle h (DB_QueryRowContext (DB c) ctx query args) s in
   run h (QueryRowContext c ctx query args) s =
   (Returned a.1, a.2,
    [Entry (DB_QueryRowContext (DB c) ctx query args) a.1]))
  /\
  (let a := handle h (DB_Close (DB c)) s in
   run h (Close c) s = (Returned a.1, a.2, [Entry (DB_Close (DB c)) a.1])).
Proof. repeat split; apply run_trigger. Qed.

(** ** C9 *)

(** C9.  [Connect] takes the context of its caller and pings under it.
    When [database/sql] refuses a context that is done and the caller's
    context is already cancelled, [Connect], on a provider that has a
    connection-string function and options that return, returns no
    connection and a non-nil error: either [sql.Open] failed, or the ping,
    made under the caller's context, failed and the pool was closed
    again. *)
Theorem Connect_cancelled_context {S : Type} (h : handler S) (s : S)
    (p : ConnectionProvider) (f : string -> string) (ctx : Context)
    (databaseName : string) :
  connStringFunc p = Some f ->
  Forall returns_option (options p) ->
  honours_cancellation h ->
  is_Some (Err ctx) ->
  let open := sql_Open "postgres" (f databaseName) in
  exists err s' tr,
    run h (Connect (Some p) ctx databaseName) s
      = (Returned (None, Some err), s', tr) /\
    ((exists e,
        err = Wrap "failed to open database" e /\
        tr = [Entry open (inr e)])
     \/
     (exists db pre perr cerr,
        err = Wrap "failed to ping database" perr /\
        tr = Entry open (inl db) :: pre ++
             [Entry (DB_PingContext db ctx) (Some perr);
              Entry (DB_Close db) cerr])).
Proof.
  intros Hf Hopts Hcancel Hdone open.
  pose proof (Connect_runs h s p f ctx databaseName Hf Hopts) as Hrun.
  destruct Hrun as [err s1 _|db s1 pre s2 perr s3 cerr s4 _ _ _|db s1 pre s2 s3 _ Hping].
  - eexists _, _, _. split; [reflexivity|]. left. by eexists.
  - eexists _, _, _. split; [reflexivity|]. right. by eexists _, _, _, _.
  - destruct (Hcancel db ctx s2 Hdone) as [e He].
    rewrite Hping in He. discriminate.
Qed.

(** The test "Connect respects context cancellation". *)
Lemma Connect_cancelled_context_witness :
  connStringFunc Sim.pooled_provider = Some Sim.connStringFunc /\
  Forall returns_option (options Sim.pooled_provider) /\
  honours_cancellation (Sim.sql Sim.localhost) /\
  is_Some (Err (WithCancel true)) /\
  let open := sql_Open "postgres" (Sim.connStringFunc "postgres") in
  exists err s' tr,
    run (Sim.sql Sim.localhost)
        (Connect (Some Sim.pooled_provider) (WithCancel true) "postgres") Sim.init
      = (Returned (None, Some err), s', tr) /\
    ((exists e,
        err = Wrap "failed to open database" e /\
        tr = [Entry open (inr e)])
     \/
     (exists db pre perr cerr,
        err = Wrap "failed to ping database" perr /\
        tr = Entry open (inl db) :: pre ++
             [Entry (DB_PingContext db (WithCancel true)) (Some perr);
              Entry (DB_Close db) cerr])).
Proof.
  split; [reflexivity|]. split; [exact pooled_provider_options|].
  split; [exact (sim_honours_cancellation Sim.localhost)|].
  split; [by eexists|].
  exact (Connect_cancelled_context (Sim.sql Sim.localhost) Sim.init
           Sim.pooled_provider Sim.connStringFunc (WithCancel true) "postgres"
           eq_refl pooled_provider_options
           (sim_honours_cancellation Sim.localhost)
           (ex_intro _ Canceled eq_refl)).
Defined.

(** ** C10 *)

(** C10.  [NewConnectionProvider] stores its two arguments as they are,
    whatever they are: a nil function and no option give a provider.  On a
    provider built with a nil function every [Connect] panics at the call
    of the function, before anything is asked of [database/sql];
    [GetNoRowsSentinel] returns on it. *)
Theorem NewConnectionProvider_no_validation :
  (forall f opts,
     NewConnectionProvider f opts
       = Some {| connStringFunc := f; options := opts |}) /\
  (forall (S : Type) (h : handler S) (s : S) opts ctx databaseName,
     run h (Connect (NewConnectionProvider None opts) ctx databaseName) s
       = (Panicked nil_dereference, s, [])) /\
  GetNoRowsSentinel (NewConnectionProvider None []) = ErrNoRows.
Proof. repeat split. Qed.

(** ** The tests of connection_provider_test.go on the simulated runtime *)

Example basic_pq_connection :
  run (Sim.sql Sim.localhost)
      (Connect (NewConnectionProvider (Some Sim.connStringFunc) [])
               Background "postgres") Sim.init
  = (Returned (Some {| DB := 0 |}, None),
     {| Sim.opened := ["postgres://localhost/postgres"]; Sim.closed := [] |},
     [Entry (sql_Open "postgres" "postgres://localhost/postgres") (inl 0);
      Entry (DB_PingContext 0 Background) None]).
Proof. reflexivity. Qed.

Example connection_to_nonexistent_database :
  (run (Sim.sql Sim.localhost)
       (Connect (NewConnectionProvider (Some Sim.connStringFunc) [])
                Background "nonexistent_db_12345") Sim.init).1
  = (Returned (None, Some (Wrap "failed to ping database"
       (DriverError
          "pq: no such database: postgres://localhost/nonexistent_db_12345"))),
     {| Sim.opened := ["postgres://localhost/nonexistent_db_12345"];
        Sim.closed := [0] |}).
Proof. reflexivity. Qed.

Example connect_without_server :
  (run (Sim.sql Sim.unreachable)
       (Connect (Some Sim.pooled_provider) Background "testdb") Sim.init).1.1
  = Returned (None, Some (Wrap "failed to ping database"
                            (DriverError "dial tcp: connection refused"))).
Proof. reflexivity. Qed.

End PqSpec.

(** * Properties of the manager model *)

Module ManagerSpec.
Import Manager.

(** ** Names *)

Lemma first_occurrence c s1 s2 t1 t2 :
  free_of c s1 -> free_of c s2 ->
  s1 +:+ String c t1 = s2 +:+ String c t2 -> s1 = s2.
Proof.
  revert s2. induction s1 as [|a s1 IH]; intros [|b s2]; simpl.
  - done.
  - intros _ [Hb _] [= <- _]. done.
  - intros [Ha _] _ [= -> _]. done.
  - intros [_ H1] [_ H2] [= -> Heq]. f_equal. by apply IH.
Qed.

Lemma pretty_N_char_not_underscore x : pretty_N_char x ≠ "_"%char.
Proof. unfold pretty_N_char. by repeat case_match. Qed.

Lemma pretty_N_go_free x s :
  free_of "_" s -> free_of "_" (pretty_N_go x s).
Proof.
  revert s. induction (N.lt_wf_0 x) as [x _ IH]; intros s Hs.
  destruct (decide (x = 0%N)) as [->|Hx].
  - by rewrite pretty_N_go_0.
  - rewrite pretty_N_go_step by lia. apply IH.
    + apply N.div_lt; lia.
    + split; [apply pretty_N_char_not_underscore | done].
Qed.

Lemma pretty_N_free (k : N) : free_of "_" (pretty k).
Proof.
  unfold pretty, pretty_N. case_decide.
  - by repeat split.
  - by apply pretty_N_go_free.
Qed.

(** Two names with the same prefix and different counts are different,
    whatever the nonces. *)
Lemma testDBName_inj prefix k1 k2 nonce1 nonce2 :
  testDBName prefix k1 nonce1 = testDBName prefix k2 nonce2 -> k1 = k2.
Proof.
  unfold testDBName. intros H%(inj (String.append prefix)).
  apply (inj pretty).
  eapply (first_occurrence "_"); [apply pretty_N_free..|exact H].
Qed.

#[local] Arguments Manager.exec : simpl never.
#[local] Arguments Manager.exec_all : simpl never.
#[local] Arguments Manager.drop_database : simpl never.
#[local] Arguments Manager.drop_each : simpl never.

Section Facts.

Variable faulty : Go.Context -> op -> option string.
Variable cfg : TemplateConfig.

Abbreviation exec := (Manager.exec faulty).
Abbreviation exec_all := (Manager.exec_all faulty).
Abbreviation Initialize := (Manager.Initialize faulty cfg).
Abbreviation step := (Manager.step faulty cfg).
Abbreviation CreateTestDatabase := (Manager.CreateTestDatabase faulty cfg).
Abbreviation drop_database := (Manager.drop_database faulty cfg).
Abbreviation DropTestDatabase := (Manager.DropTestDatabase faulty cfg).
Abbreviation drop_each := (Manager.drop_each faulty cfg).
Abbreviation Cleanup := (Manager.Cleanup faulty cfg).
Abbreviation serve := (Manager.serve faulty cfg).
Abbreviation act := (Manager.act faulty cfg).
Abbreviation schedule := (Manager.schedule faulty cfg).

(** ** The flag, the counter and the live-set, step by step *)

Lemma step_initialized c st :
  initialized (step c st).2.1 = initialized st.1.
Proof.
  destruct st as [m e], c as [ctx nonce|ctx name|ctx name|ctx name|r]; simpl;
    try done.
  - by destruct (initialized m) eqn:E.
  - by destruct (exec_all _ _ _) as [[f|] e1].
  - by destruct (exec _ _ _) as [[f|] e1].
Qed.

Lemma step_counter c st : (counter st.1 ≤ counter (step c st).2.1)%N.
Proof.
  destruct st as [m e], c as [ctx nonce|ctx name|ctx name|ctx name|r]; simpl;
    try done.
  - destruct (initialized m); simpl; lia.
  - by destruct (exec_all _ _ _) as [[f|] e1].
  - by destruct (exec _ _ _) as [[f|] e1].
Qed.

Lemma Initialize_counter ctx st :
  counter (Initialize ctx st).2.1 = counter st.1.
Proof.
  destruct st as [m e]. unfold Manager.Initialize.
  destruct (initialized m); [done|].
  by destruct (exec_all _ _ _) as [[f|] e1].
Qed.

Lemma DropTestDatabase_counter ctx name st :
  counter (DropTestDatabase ctx name st).2.1 = counter st.1.
Proof.
  destruct st as [m e]. unfold Manager.DropTestDatabase.
  destruct (decide (name ∈ live m)); [|done].
  by destruct (drop_database _ _ _) as [r e1].
Qed.

Lemma Cleanup_counter ctx st : counter (Cleanup ctx st).2.1 = counter st.1.
Proof.
  destruct st as [m e]. unfold Manager.Cleanup.
  destruct (initialized m); [|done].
  by destruct (drop_each _ _ _) as [failures e1].
Qed.

Lemma serve_counter r st : counter (serve r st).1 = counter st.1.
Proof.
  destruct r; simpl;
    auto using Initialize_counter, DropTestDatabase_counter, Cleanup_counter.
Qed.

Lemma Initialize_live ctx st : live (Initialize ctx st).2.1 = live st.1.
Proof.
  destruct st as [m e]. unfold Manager.Initialize.
  destruct (initialized m); [done|].
  by destruct (exec_all _ _ _) as [[f|] e1].
Qed.

Lemma DropTestDatabase_live ctx name st :
  live (DropTestDatabase ctx name st).2.1 = live st.1 ∖ {[name]}.
Proof.
  destruct st as [m e]. unfold Manager.DropTestDatabase.
  destruct (decide (name ∈ live m)) as [Hin|Hin].
  - by destruct (drop_database _ _ _) as [r e1].
  - simpl. apply set_eq. intros n.
    rewrite elem_of_difference, elem_of_singleton. split; [|by intros [? _]].
    intros Hn. split; [done|]. by intros ->.
Qed.

Lemma Cleanup_live ctx st : live (Cleanup ctx st).2.1 ⊆ live st.1.
Proof.
  destruct st as [m e]. unfold Manager.Cleanup.
  destruct (initialized m); [|done].
  destruct (drop_each _ _ _) as [failures e1]. simpl. set_solver.
Qed.

Lemma serve_live r st : live (serve r st).1 ⊆ live st.1.
Proof.
  destruct r as [ctx|ctx name|ctx]; simpl.
  - by rewrite Initialize_live.
  - rewrite DropTestDatabase_live. by intros n [? _]%elem_of_difference.
  - apply Cleanup_live.
Qed.

(** What a step does to the live-set: the step that records adds the name
    the call holds, the others add nothing. *)
Lemma step_live c st n :
  n ∈ live (step c st).2.1 -> n ∈ live st.1 ∨ name_of c = Some n.
Proof.
  destruct st as [m e], c as [ctx nonce|ctx name|ctx name|ctx name|r]; simpl;
    try by left.
  - destruct (initialized m); by left.
  - destruct (exec_all _ _ _) as [[f|] e1]; by left.
  - intros [->%elem_of_singleton|?]%elem_of_union; [by right|by left].
  - destruct (exec _ _ _) as [[f|] e1]; by left.
Qed.

(** What a step does to the name a call holds: it is kept, or it is the
    name made from the next count. *)
Lemma step_name c st n :
  name_of (step c st).1 = Some n ->
  name_of c = Some n ∨
  (name_of c = None ∧ counter (step c st).2.1 = (counter st.1 + 1)%N ∧
   ∃ nonce, n = testDBName (TestDBPrefix cfg) (counter st.1 + 1) nonce).
Proof.
  destruct st as [m e], c as [ctx nonce|ctx name|ctx name|ctx name|r]; simpl;
    try by left.
  - destruct (initialized m); simpl; [|done].
    intros [= <-]. right. eauto.
  - destruct (exec_all _ _ _) as [[f|] e1]; simpl; [done|by left].
  - destruct (exec _ _ _) as [[f|] e1]; simpl; [done|by left].
Qed.

(** ** Callers running together *)

Abbreviation generated := (Manager.generated cfg).
Abbreviation consistent := (Manager.consistent cfg).

Lemma generated_mono c0 c c' n :
  generated c0 c n -> (c <= c')%N -> generated c0 c' n.
Proof.
  intros (k & nonce & Hk & ->) Hle. exists k, nonce. split; [lia|done].
Qed.

Lemma spawn_consistent args m e : consistent m (spawn args (m, e)).
Proof.
  split; simpl.
  - lia.
  - intros i c n Hi Hn. rewrite list_lookup_fmap in Hi.
    destruct (args !! i); simplify_eq/=.
  - intros i j ci cj n Hi _ Hn. rewrite list_lookup_fmap in Hi.
    destruct (args !! i); simplify_eq/=.
  - auto.
Qed.

Lemma act_consistent m0 a sys :
  consistent m0 sys -> consistent m0 (act a sys).
Proof.
  intros [Hmono Hgen Hdist Hlive].
  destruct a as [i|r]; unfold Manager.act.
  - destruct (calls sys !! i) as [c|] eqn:Hc; [|by split].
    pose proof (step_counter c (shared sys)) as Hcount.
    pose proof (step_name c (shared sys)) as Hname.
    pose proof (step_live c (shared sys)) as Hstep.
    destruct (step c (shared sys)) as [c1 st1]. simpl in *.
    assert (forall n, name_of c1 = Some n -> generated (counter m0) (counter st1.1) n)
      as Hgen1.
    { intros n [Hn|(_ & Hcnt & nonce & ->)]%Hname.
      - eapply generated_mono; [by eapply Hgen|done].
      - exists (counter (shared sys).1 + 1)%N, nonce. split; [lia|done]. }
    assert (forall j cj n, j ≠ i -> calls sys !! j = Some cj ->
              name_of cj = Some n -> name_of c1 = Some n -> False) as Hfresh.
    { intros j cj n Hji Hj Hnj [Hn|(_ & Hcnt & nonce & ->)]%Hname.
      - apply Hji. by eapply Hdist.
      - destruct (Hgen j cj _ Hj Hnj) as (k & nonce' & Hk & Heq).
        apply testDBName_inj in Heq. lia. }
    split; simpl.
    + lia.
    + intros j cj n [(<- & <- & _)|[Hji Hj]]%list_lookup_insert_Some Hn.
      * by apply Hgen1.
      * eapply generated_mono; [by eapply Hgen|done].
    + intros j1 j2 c2 c3 n
        [(<- & <- & _)|[Hj1 H1]]%list_lookup_insert_Some
        [(<- & <- & _)|[Hj2 H2]]%list_lookup_insert_Some Hn1 Hn2; try done.
      * by destruct (Hfresh j2 c3 n).
      * by destruct (Hfresh j1 c2 n).
      * by eapply Hdist.
    + intros n [Hn|Hn]%Hstep.
      * destruct (Hlive n Hn) as [?|?]; [by left|right].
        by eapply generated_mono.
      * right. eapply generated_mono; [by eapply Hgen|done].
  - split; simpl; rewrite ?serve_counter; try done.
    intros n Hn%serve_live. auto.
Qed.

Lemma schedule_consistent m0 acts sys :
  consistent m0 sys -> consistent m0 (schedule acts sys).
Proof.
  revert sys. induction acts as [|a acts IH]; intros sys Hsys; simpl; [done|].
  by apply IH, act_consistent.
Qed.

Lemma returned_name_of c n : returned c = Some n -> name_of c = Some n.
Proof. by destruct c as [| | | |[]]. Qed.

(** Values found at different places of a list are different: the list
    of the values has no duplicate. *)
Lemma NoDup_omap_lookup {A B : Type} (f : A -> option B) (l : list A) :
  (forall i j x y z,
     l !! i = Some x -> l !! j = Some y -> f x = Some z -> f y = Some z ->
     i = j) ->
  NoDup (omap f l).
Proof.
  induction l as [|a l IH]; intros Hl; simpl; [constructor|].
  assert (NoDup (omap f l)) as Hrest.
  { apply IH. intros i j x y z Hi Hj Hx Hy.
    by pose proof (Hl (S i) (S j) x y z Hi Hj Hx Hy) as [= ->]. }
  destruct (f a) as [z|] eqn:Ha; [|done].
  constructor; [|done].
  intros (y & [j Hj]%list_elem_of_lookup & Hy)%list_elem_of_omap.
  by pose proof (Hl 0 (S j) a y z eq_refl Hj Ha Hy).
Qed.

(** ** C3 *)

(** C3.  For every valid configuration, that is one [NewTemplateManager]
    accepts, and every number of calls of [CreateTestDatabase] running
    together, in whatever order their steps are scheduled and whatever
    other requests are served in between: the names the calls have
    returned are pairwise distinct, each is the prefix followed by a count
    and a nonce, and when all [N] calls have returned a name the set of
    the names has [N] elements. *)
Theorem CreateTestDatabase_names_distinct (cfg0 : TemplateConfig)
    (m0 : ManagerState) (e : Engine) (args : list (Go.Context * string))
    (acts : list action) :
  NewTemplateManager cfg0 = inl (cfg, m0) ->
  let sys := schedule acts (spawn args (m0, e)) in
  NoDup (returned_names sys) /\
  (forall n, n ∈ returned_names sys ->
     exists k nonce, (0 < k <= counter (shared sys).1)%N /\
                     n = testDBName (TestDBPrefix cfg) k nonce) /\
  (length (returned_names sys) = length args ->
   size (list_to_set (returned_names sys) : gset string) = length args).
Proof.
  intros Hnew sys.
  assert (counter m0 = 0%N) as Hzero.
  { unfold NewTemplateManager in Hnew.
    destruct (invalid (with_defaults cfg0)); by simplify_eq. }
  pose proof (schedule_consistent m0 acts _ (spawn_consistent args m0 e))
    as [_ Hgen Hdist _]. fold sys in Hgen, Hdist.
  assert (NoDup (returned_names sys)) as Hnodup.
  { apply NoDup_omap_lookup. intros i j ci cj n Hi Hj Hci Hcj.
    eapply Hdist; eauto using returned_name_of. }
  split; [done|]. split.
  - intros n (c & [i Hi]%list_elem_of_lookup & Hc)%list_elem_of_omap.
    destruct (Hgen i c n Hi (returned_name_of _ _ Hc)) as (k & nonce & Hk & ->).
    exists k, nonce. split; [lia|done].
  - intros <-. by apply size_list_to_set.
Qed.

(** ** C4 *)

Lemma act_stays_initialized a sys :
  is_cleanup a = false ->
  initialized (shared sys).1 = true ->
  initialized (shared (act a sys)).1 = true.
Proof.
  intros Ha Hinit. destruct a as [i|[ctx|ctx name|ctx]]; try done; simpl.
  - destruct (calls sys !! i) as [c|]; [|done].
    pose proof (step_initialized c (shared sys)) as Hstep.
    destruct (step c (shared sys)) as [c1 st1]. simpl in *. congruence.
  - destruct (shared sys) as [m e]. simpl in *. by rewrite Hinit.
  - destruct (shared sys) as [m e]. unfold Manager.DropTestDatabase.
    destruct (decide (name ∈ live m)); [|done].
    by destruct (drop_database _ _ _) as [r e1].
Qed.

Lemma act_stays_uninitialized a sys :
  is_initialize a = false ->
  initialized (shared sys).1 = false ->
  initialized (shared (act a sys)).1 = false.
Proof.
  intros Ha Hinit. destruct a as [i|[ctx|ctx name|ctx]]; try done; simpl.
  - destruct (calls sys !! i) as [c|]; [|done].
    pose proof (step_initialized c (shared sys)) as Hstep.
    destruct (step c (shared sys)) as [c1 st1]. simpl in *. congruence.
  - destruct (shared sys) as [m e]. unfold Manager.DropTestDatabase.
    destruct (decide (name ∈ live m)); [|done].
    by destruct (drop_database _ _ _) as [r e1].
  - destruct (shared sys) as [m e]. simpl in *. by rewrite Hinit.
Qed.

Lemma schedule_stays_initialized acts sys :
  Forall (fun a => is_cleanup a = false) acts ->
  initialized (shared sys).1 = true ->
  initialized (shared (schedule acts sys)).1 = true.
Proof.
  intros Hacts. revert sys.
  induction Hacts as [|a acts Ha _ IH]; intros sys Hinit; simpl; [done|].
  by apply IH, act_stays_initialized.
Qed.

Lemma schedule_stays_uninitialized acts sys :
  Forall (fun a => is_initialize a = false) acts ->
  initialized (shared sys).1 = false ->
  initialized (shared (schedule acts sys)).1 = false.
Proof.
  intros Hacts. revert sys.
  induction Hacts as [|a acts Ha _ IH]; intros sys Hinit; simpl; [done|].
  by apply IH, act_stays_uninitialized.
Qed.

Lemma CreateTestDatabase_uninitialized ctx nonce st :
  initialized st.1 = false ->
  CreateTestDatabase ctx nonce st = (inr NotInitializedError, st).
Proof.
  destruct st as [m e]. simpl. intros Hinit.
  unfold Manager.CreateTestDatabase. by rewrite Hinit.
Qed.

Lemma Initialize_initialized ctx st :
  initialized st.1 = true ->
  Initialize ctx st = (Some AlreadyInitializedError, st).
Proof.
  destruct st as [m e]. simpl. intros Hinit.
  unfold Manager.Initialize. by rewrite Hinit.
Qed.

Lemma Initialize_success ctx st :
  (Initialize ctx st).1 = None -> initialized (Initialize ctx st).2.1 = true.
Proof.
  destruct st as [m e]. unfold Manager.Initialize.
  destruct (initialized m); [done|].
  by destruct (exec_all _ _ _) as [[f|] e1].
Qed.

(** C4.  While the manager is not initialized, [CreateTestDatabase]
    returns [NotInitializedError]; once it is, [Initialize] returns
    [AlreadyInitializedError]; both leave the manager and the engine as
    they were.  The manager is not initialized from its construction until
    an [Initialize] is served, and it stays initialized from a successful
    [Initialize] until a [Cleanup] is served, whatever calls run in
    between. *)
Theorem lifecycle_errors :
  (forall ctx nonce st,
     initialized st.1 = false ->
     CreateTestDatabase ctx nonce st = (inr NotInitializedError, st)) /\
  (forall ctx st,
     initialized st.1 = true ->
     Initialize ctx st = (Some AlreadyInitializedError, st)) /\
  (forall cfg0 m0 e cs acts ctx nonce,
     NewTemplateManager cfg0 = inl (cfg, m0) ->
     Forall (fun a => is_initialize a = false) acts ->
     let st := shared (schedule acts {| calls := cs; shared := (m0, e) |}) in
     CreateTestDatabase ctx nonce st = (inr NotInitializedError, st)) /\
  (forall ctx0 st0 cs acts ctx,
     (Initialize ctx0 st0).1 = None ->
     Forall (fun a => is_cleanup a = false) acts ->
     let st :=
       shared (schedule acts {| calls := cs; shared := (Initialize ctx0 st0).2 |}) in
     Initialize ctx st = (Some AlreadyInitializedError, st)).
Proof.
  split; [exact CreateTestDatabase_uninitialized|].
  split; [exact Initialize_initialized|]. split.
  - intros cfg0 m0 e cs acts ctx nonce Hnew Hacts st.
    apply CreateTestDatabase_uninitialized, schedule_stays_uninitialized; [done|].
    unfold NewTemplateManager in Hnew.
    destruct (invalid (with_defaults cfg0)); by simplify_eq.
  - intros ctx0 st0 cs acts ctx Hok Hacts st.
    apply Initialize_initialized, schedule_stays_initialized; [done|].
    by apply Initialize_success.
Qed.

(** ** C5 *)

Lemma DropTestDatabase_untracked ctx name st :
  name ∉ live st.1 -> DropTestDatabase ctx name st = (None, st).
Proof.
  destruct st as [m e]. simpl. intros Hname.
  unfold Manager.DropTestDatabase. by destruct (decide (name ∈ live m)).
Qed.

Lemma CreateTestDatabase_tracked ctx nonce st name st1 :
  CreateTestDatabase ctx nonce st = (inl name, st1) -> name ∈ live st1.1.
Proof.
  destruct st as [m e]. unfold Manager.CreateTestDatabase.
  destruct (initialized m); [|done].
  destruct (exec_all _ _ _) as [[f|] e1]; [done|].
  destruct (exec _ _ _) as [[f|] e2]; [done|].
  intros [= <- <-]. simpl. apply elem_of_union_l. by apply elem_of_singleton.
Qed.

(** A call that runs alone is a call whose four steps are taken in a
    row. *)
Lemma CreateTestDatabase_alone ctx nonce st :
  schedule [Advance 0; Advance 0; Advance 0; Advance 0]
           {| calls := [Start ctx nonce]; shared := st |}
  = {| calls := [Done (CreateTestDatabase ctx nonce st).1];
       shared := (CreateTestDatabase ctx nonce st).2 |}.
Proof.
  destruct st as [m e].
  unfold Manager.schedule, Manager.CreateTestDatabase. simpl.
  destruct (initialized m) eqn:Hinit; simpl.
  - destruct (exec_all _ _ _) as [[f|] e1]; simpl; [done|].
    by destruct (exec _ _ _) as [[f|] e2].
  - done.
Qed.

(** C5.  [DropTestDatabase] of a name that is not in the live-set returns
    nil and leaves the manager and the engine as they were; that is the
    case of a name that was dropped before, and of a name that no call of
    [CreateTestDatabase] can have made.  A name returned by
    [CreateTestDatabase] is in the live-set, and in every case the
    live-set after [DropTestDatabase] is the live-set before without that
    one name. *)
Theorem DropTestDatabase_live_set :
  (forall ctx name st,
     name ∉ live st.1 -> DropTestDatabase ctx name st = (None, st)) /\
  (forall ctx ctx' name st,
     let st1 := (DropTestDatabase ctx name st).2 in
     DropTestDatabase ctx' name st1 = (None, st1)) /\
  (forall cfg0 m0 e args acts ctx name,
     NewTemplateManager cfg0 = inl (cfg, m0) ->
     (forall k nonce, name ≠ testDBName (TestDBPrefix cfg) k nonce) ->
     let st := shared (schedule acts (spawn args (m0, e))) in
     DropTestDatabase ctx name st = (None, st)) /\
  (forall ctx nonce st name st1,
     CreateTestDatabase ctx nonce st = (inl name, st1) ->
     name ∈ live st1.1) /\
  (forall ctx name st,
     live (DropTestDatabase ctx name st).2.1 = live st.1 ∖ {[name]}).
Proof.
  split; [exact DropTestDatabase_untracked|]. split.
  { intros ctx ctx' name st st1. apply DropTestDatabase_untracked.
    unfold st1. rewrite DropTestDatabase_live.
    intros [_ Hn]%elem_of_difference. by apply Hn, elem_of_singleton. }
  split.
  { intros cfg0 m0 e args acts ctx name Hnew Hname st.
    apply DropTestDatabase_untracked. intros Hin.
    pose proof (schedule_consistent m0 acts _ (spawn_consistent args m0 e))
      as [_ _ _ Hlive].
    destruct (Hlive name Hin) as [Hm0|(k & nonce & _ & ->)].
    - unfold NewTemplateManager in Hnew.
      destruct (invalid (with_defaults cfg0)); simplify_eq. set_solver.
    - by eapply Hname. }
  split; [exact CreateTestDatabase_tracked|exact DropTestDatabase_live].
Qed.

(** ** Dropping databases *)

Abbreviation drop_ops := (Manager.drop_ops cfg).
Abbreviation drop_fault := (Manager.drop_fault faulty cfg).
Abbreviation drop_faults := (Manager.drop_faults faulty cfg).
Abbreviation to_drop := (Manager.to_drop cfg).
Abbreviation dropped_log := (Manager.dropped_log cfg).

Lemma exec_fault ctx o e c :
  faulty ctx o = Some c ->
  exec ctx o e =
  (Some {| failed_op := o; cause := c |},
   {| databases := databases e; log := log e ++ [(o, Some c)] |}).
Proof. intros H. unfold Manager.exec. by rewrite H. Qed.

Lemma exec_ok ctx o e :
  faulty ctx o = None -> refusal (databases e) o = None ->
  exec ctx o e =
  (None, {| databases := effect o (databases e); log := log e ++ [(o, None)] |}).
Proof. intros H1 H2. unfold Manager.exec. by rewrite H1, H2. Qed.

Lemma exec_all_cons ctx o os e :
  exec_all ctx (o :: os) e =
  match exec ctx o e with
  | (Some f, e1) => (Some f, e1)
  | (None, e1) => exec_all ctx os e1
  end.
Proof. done. Qed.

Lemma refusal_exists dbs db :
  db ∈ dbs ->
  refusal dbs (OpenConnection db) = None /\ refusal dbs (DropDatabase db) = None
  /\ refusal dbs (RunMigrations db) = None.
Proof. intros H. simpl. by destruct (decide (db ∈ dbs)). Qed.

Lemma refusal_fresh dbs db :
  db ∉ dbs -> refusal dbs (CreateDatabase db None) = None.
Proof. intros H. simpl. by destruct (decide (db ∈ dbs)). Qed.

(** Dropping an existing database, the admin database being there: it
    fails exactly as the outside makes it fail, and then the database
    stays; otherwise the database is gone. *)
Lemma drop_database_spec ctx name e :
  AdminDBName cfg ∈ databases e -> name ∈ databases e ->
  (drop_database ctx name e).1 = drop_fault ctx name /\
  databases (drop_database ctx name e).2 =
    (match drop_fault ctx name with
     | Some _ => databases e
     | None => databases e ∖ {[name]}
     end).
Proof.
  intros Hadmin Hname.
  unfold Manager.drop_database, Manager.drop_fault, Manager.drop_ops.
  simpl external_failure. rewrite exec_all_cons.
  destruct (faulty ctx (OpenConnection (AdminDBName cfg))) as [c|] eqn:H1.
  { by rewrite (exec_fault _ _ _ c). }
  rewrite exec_ok by (done || by apply refusal_exists).
  rewrite exec_all_cons.
  destruct (faulty ctx (TerminateBackends name)) as [c|] eqn:H2.
  { by rewrite (exec_fault _ _ _ c). }
  rewrite exec_ok by done. rewrite exec_all_cons.
  destruct (faulty ctx (DropDatabase name)) as [c|] eqn:H3.
  { by rewrite (exec_fault _ _ _ c). }
  rewrite exec_ok by (done || by apply refusal_exists). done.
Qed.

Lemma exec_databases ctx o e r e1 :
  exec ctx o e = (r, e1) ->
  databases e1 = match r with
                 | Some _ => databases e
                 | None => effect o (databases e)
                 end.
Proof.
  unfold Manager.exec.
  destruct (faulty ctx o) as [c|]; [by intros [= <- <-]|].
  destruct (refusal (databases e) o) as [c|]; by intros [= <- <-].
Qed.

(** Whatever the state of the engine: a drop that succeeds removes the
    database and nothing else, a drop that fails changes no database. *)
Lemma drop_database_databases ctx name e :
  databases (drop_database ctx name e).2 =
  match (drop_database ctx name e).1 with
  | Some _ => databases e
  | None => databases e ∖ {[name]}
  end.
Proof.
  unfold Manager.drop_database, Manager.drop_ops. rewrite exec_all_cons.
  destruct (exec ctx (OpenConnection (AdminDBName cfg)) e) as [[f1|] e1] eqn:H1;
    apply exec_databases in H1; [done|].
  rewrite exec_all_cons.
  destruct (exec ctx (TerminateBackends name) e1) as [[f2|] e2] eqn:H2;
    apply exec_databases in H2; simpl in *; [congruence|].
  rewrite exec_all_cons.
  destruct (exec ctx (DropDatabase name) e2) as [[f3|] e3] eqn:H3;
    apply exec_databases in H3; simpl in *; congruence.
Qed.

Lemma drop_each_cons ctx name names e :
  drop_each ctx (name :: names) e =
  (match (drop_database ctx name e).1 with
   | Some f => (name, f) :: (drop_each ctx names (drop_database ctx name e).2).1
   | None => (drop_each ctx names (drop_database ctx name e).2).1
   end,
   (drop_each ctx names (drop_database ctx name e).2).2).
Proof.
  unfold Manager.drop_each at 1. fold (Manager.drop_each faulty cfg).
  destruct (drop_database ctx name e) as [r e1]. simpl.
  by destruct (drop_each ctx names e1) as [failures e2].
Qed.

(** Whatever the state of the engine and whatever fails: no database is
    added, only databases of the list are reported, and every database of
    the list is gone or reported. *)
Lemma drop_each_attempts ctx names e :
  databases (drop_each ctx names e).2 ⊆ databases e /\
  (forall n f, (n, f) ∈ (drop_each ctx names e).1 -> n ∈ names) /\
  (forall n, n ∈ names ->
     n ∉ databases (drop_each ctx names e).2 \/
     exists f, (n, f) ∈ (drop_each ctx names e).1).
Proof.
  revert e. induction names as [|name names IH]; intros e.
  { split; [done|]. split; [by intros n f ?%elem_of_nil|by intros n ?%elem_of_nil]. }
  rewrite drop_each_cons. pose proof (drop_database_databases ctx name e) as Hdbs.
  destruct (IH (drop_database ctx name e).2) as (Hsub & Hrep & Hall).
  set (r := (drop_database ctx name e).1) in *.
  set (e1 := (drop_database ctx name e).2) in *.
  set (rest := drop_each ctx names e1) in *. simpl.
  assert (databases e1 ⊆ databases e) as Hsub1.
  { rewrite Hdbs. destruct r; [done|]. by intros n [? _]%elem_of_difference. }
  split; [by etrans|]. split.
  - intros n f Hin. destruct r as [f0|].
    + apply elem_of_cons in Hin as [[= -> _]|Hin]; [by left|].
      right. by eapply Hrep.
    + right. by eapply Hrep.
  - intros n [->|Hn]%elem_of_cons.
    + destruct r as [f0|].
      * right. exists f0. by left.
      * left. intros Hin%Hsub. rewrite Hdbs in Hin.
        apply elem_of_difference in Hin as [_ Hin]. by apply Hin, elem_of_singleton.
    + destruct (Hall n Hn) as [?|[f Hf]]; [by left|right].
      exists f. destruct r; [by right|done].
Qed.

(** Dropping the databases of a list without repetition, all existing and
    none of them the admin database: the failures reported are those the
    outside causes, in the order of the list, and the databases left are
    those that were not to be dropped and those whose drop failed. *)
Lemma drop_each_spec ctx names e :
  NoDup names ->
  AdminDBName cfg ∈ databases e ->
  AdminDBName cfg ∉ names ->
  (forall n, n ∈ names -> n ∈ databases e) ->
  (drop_each ctx names e).1 = drop_faults ctx names /\
  forall n, n ∈ databases (drop_each ctx names e).2 <->
            n ∈ databases e /\ (n ∈ names -> is_Some (drop_fault ctx n)).
Proof.
  intros Hnodup. revert e.
  induction Hnodup as [|name names Hname _ IH]; intros e Hadmin Hnot Hall.
  { split; [done|]. intros n. simpl. split.
    - intros ?. split; [done|]. by intros ?%elem_of_nil.
    - by intros [? _]. }
  rewrite drop_each_cons.
  destruct (drop_database_spec ctx name e Hadmin) as [Hr Hdbs].
  { apply Hall. by left. }
  set (e1 := (drop_database ctx name e).2) in *.
  assert (forall n, n ≠ name -> n ∈ databases e1 <-> n ∈ databases e) as Hother.
  { intros n Hn. rewrite Hdbs. destruct (drop_fault ctx name); [done|].
    rewrite elem_of_difference, elem_of_singleton. tauto. }
  destruct (IH e1) as [IH1 IH2].
  { apply Hother; [|done]. intros Heq. apply Hnot. rewrite Heq. by left. }
  { intros ?. apply Hnot. by right. }
  { intros n Hn. apply Hother; [by intros ->|]. apply Hall. by right. }
  simpl. rewrite IH1, Hr. split.
  { unfold Manager.drop_faults. simpl. by destruct (drop_fault ctx name). }
  intros n. rewrite IH2. destruct (decide (n = name)) as [->|Hn].
  - rewrite Hdbs. destruct (drop_fault ctx name) as [f|] eqn:Hf.
    + split.
      * intros [Hin _]. split; [done|]. by eexists.
      * intros [Hin _]. split; [done|]. by intros ?.
    + split.
      * intros [Hin _]. apply elem_of_difference in Hin as [_ Hin].
        destruct Hin. by apply elem_of_singleton.
      * intros [_ H]. destruct H as [? [=]]. by left.
  - rewrite (Hother n Hn). split.
    + intros [Hin Hfail]. split; [done|].
      intros [-> |?]%elem_of_cons; [done|auto].
    + intros [Hin Hfail]. split; [done|]. intros ?. apply Hfail. by right.
Qed.

Abbreviation well_formed := (Manager.well_formed cfg).

Lemma to_drop_spec m e :
  well_formed m e ->
  NoDup (to_drop m) /\
  (AdminDBName cfg ∉ to_drop m) /\
  (forall n, n ∈ to_drop m <-> n ∈ live m \/ n = TemplateName cfg) /\
  (forall n, n ∈ to_drop m -> n ∈ databases e).
Proof.
  intros [Hnames Hadmin Htemplate Hlive Hla Hlt]. unfold Manager.to_drop.
  assert (forall n, n ∈ elements (live m) ++ [TemplateName cfg] <->
                    n ∈ live m \/ n = TemplateName cfg) as Hin.
  { intros n. rewrite elem_of_app, elem_of_elements, list_elem_of_singleton.
    done. }
  split; [|split; [|split]].
  - apply NoDup_app. split; [apply NoDup_elements|]. split.
    + intros n Hn%elem_of_elements Ht%list_elem_of_singleton. by subst.
    + apply NoDup_singleton.
  - intros [?|?]%Hin; [done|]. by apply Hnames.
  - done.
  - intros n [?|Ht]%Hin; [by apply Hlive|by subst].
Qed.

Lemma drop_faults_elem ctx names n f :
  (n, f) ∈ drop_faults ctx names <-> n ∈ names /\ drop_fault ctx n = Some f.
Proof.
  unfold Manager.drop_faults. rewrite list_elem_of_omap. split.
  - intros (n' & Hn' & Heq). destruct (drop_fault ctx n') eqn:E; by simplify_eq/=.
  - intros [Hn Hf]. exists n. by rewrite Hf.
Qed.

Lemma drop_faults_none ctx names :
  (forall n, n ∈ names -> drop_fault ctx n = None) ->
  drop_faults ctx names = [].
Proof.
  induction names as [|name names IH]; intros Hall; [done|].
  unfold Manager.drop_faults. simpl. rewrite (Hall name) by by left.
  apply IH. intros n Hn. apply Hall. by right.
Qed.

Lemma drop_faults_single ctx names x f :
  NoDup names -> x ∈ names -> drop_fault ctx x = Some f ->
  (forall n, n ∈ names -> n ≠ x -> drop_fault ctx n = None) ->
  drop_faults ctx names = [(x, f)].
Proof.
  induction 1 as [|name names Hname Hnodup IH]; intros Hx Hf Hothers.
  { by apply elem_of_nil in Hx. }
  unfold Manager.drop_faults. simpl.
  destruct (decide (name = x)) as [->|Hne].
  - rewrite Hf. simpl. f_equal. apply drop_faults_none.
    intros n Hn. apply Hothers; [by right|]. by intros ->.
  - rewrite (Hothers name) by (done || by left). simpl.
    apply IH; [|done|].
    + apply elem_of_cons in Hx as [-> |?]; done.
    + intros n Hn. apply Hothers. by right.
Qed.

(** ** C6 *)

(** C6.  [Cleanup] on an initialized manager attempts every drop, whatever
    failed before: each tracked database is gone afterwards or is named in
    the error returned, which is one aggregate of the failures and names
    tracked databases and the template only.  In a state where the tracked
    databases and the template exist, the aggregate holds exactly the
    failures caused from outside, and the databases it names are exactly
    those still there; when one tracked database fails to drop and nothing
    else does, all the others are gone and the aggregate is that one
    failure, with the name of that database. *)
Theorem Cleanup_partial_failure (ctx : Go.Context) (m : ManagerState)
    (e : Engine) :
  initialized m = true ->
  exists failures e1,
    Cleanup ctx (m, e) =
      (match failures with
       | [] => None
       | _ => Some (PartialCleanupError failures)
       end,
       ({| initialized := false; live := ∅; counter := counter m |}, e1)) /\
    (forall n, n ∈ live m ->
               n ∉ databases e1 \/ exists f, (n, f) ∈ failures) /\
    (forall n f, (n, f) ∈ failures -> n ∈ live m \/ n = TemplateName cfg) /\
    (well_formed m e ->
     failures = drop_faults ctx (to_drop m) /\
     (forall n f, (n, f) ∈ failures <->
                  (n ∈ live m \/ n = TemplateName cfg) /\
                  drop_fault ctx n = Some f) /\
     (forall n, n ∈ databases e1 <->
                n ∈ databases e /\
                (n ∈ live m \/ n = TemplateName cfg ->
                 exists f, (n, f) ∈ failures)) /\
     (forall x f,
        x ∈ live m -> drop_fault ctx x = Some f ->
        (forall n, n ∈ live m \/ n = TemplateName cfg -> n ≠ x ->
                   drop_fault ctx n = None) ->
        failures = [(x, f)] /\
        forall n, n ∈ live m -> n ≠ x -> n ∉ databases e1)).
Proof.
  intros Hinit.
  exists (drop_each ctx (to_drop m) e).1, (drop_each ctx (to_drop m) e).2.
  destruct (drop_each_attempts ctx (to_drop m) e) as (_ & Hrep & Hall).
  assert (forall n, n ∈ to_drop m <-> n ∈ live m \/ n = TemplateName cfg) as Hin.
  { intros n. unfold Manager.to_drop.
    by rewrite elem_of_app, elem_of_elements, list_elem_of_singleton. }
  split; [|split; [|split]].
  - unfold Manager.Cleanup. rewrite Hinit. fold (to_drop m).
    by destruct (drop_each ctx (to_drop m) e) as [[|] e1].
  - intros n Hn. apply Hall, Hin. by left.
  - intros n f Hf%Hrep. by apply Hin.
  - intros Hwf.
    destruct (to_drop_spec m e Hwf) as (Hnodup & Hadmin & _ & Hexist).
    destruct (drop_each_spec ctx (to_drop m) e Hnodup (wf_admin _ _ _ Hwf)
                Hadmin Hexist) as [Hfail Hdbs].
    rewrite Hfail.
    assert (forall n, n ∈ databases (drop_each ctx (to_drop m) e).2 <->
              n ∈ databases e /\
              (n ∈ live m \/ n = TemplateName cfg ->
               exists f, (n, f) ∈ drop_faults ctx (to_drop m))) as Hleft.
    { intros n. rewrite Hdbs. split; intros [Hn Hf]; (split; [done|]).
      - intros Hn'. destruct (Hf (proj2 (Hin n) Hn')) as [f Hf'].
        exists f. apply drop_faults_elem. split; [by apply Hin|done].
      - intros Hn'%Hin. destruct (Hf Hn') as [f [_ Hf']%drop_faults_elem].
        by exists f. }
    split; [done|]. split; [|split; [done|]].
    + intros n f. rewrite drop_faults_elem. by rewrite Hin.
    + intros x f Hx Hf Hothers.
      assert (drop_faults ctx (to_drop m) = [(x, f)]) as Hsingle.
      { apply drop_faults_single; [done|apply Hin; by left|done|].
        intros n Hn%Hin. by apply Hothers. }
      split; [done|]. intros n Hn Hne [_ Hstill]%Hleft.
      destruct Hstill as [f' Hf']; [by left|].
      rewrite Hsingle in Hf'. apply list_elem_of_singleton in Hf'. congruence.
Qed.

(** ** C7 *)

Lemma drop_database_no_fault ctx name e :
  (forall o, faulty ctx o = None) ->
  AdminDBName cfg ∈ databases e -> name ∈ databases e ->
  drop_database ctx name e =
  (None, {| databases := databases e ∖ {[name]};
            log := log e ++ dropped_log [name] |}).
Proof.
  intros Hok Hadmin Hname.
  unfold Manager.drop_database, Manager.drop_ops.
  rewrite exec_all_cons, exec_ok by (done || by apply refusal_exists).
  rewrite exec_all_cons, exec_ok by done.
  rewrite exec_all_cons, exec_ok by (done || by apply refusal_exists).
  simpl. by rewrite <-!(assoc_L (++)).
Qed.

Lemma drop_each_no_fault ctx names e :
  (forall o, faulty ctx o = None) ->
  NoDup names ->
  AdminDBName cfg ∈ databases e ->
  AdminDBName cfg ∉ names ->
  (forall n, n ∈ names -> n ∈ databases e) ->
  drop_each ctx names e =
  ([], {| databases := databases e ∖ list_to_set names;
          log := log e ++ dropped_log names |}).
Proof.
  intros Hok Hnodup. revert e.
  induction Hnodup as [|name names Hname _ IH]; intros e Hadmin Hnot Hall.
  { simpl. destruct e as [dbs l]. simpl. f_equal. f_equal.
    - apply set_eq. intros n. rewrite elem_of_difference.
      split; [|by intros [? _]]. intros ?. split; [done|]. apply not_elem_of_empty.
    - by rewrite (right_id_L [] (++)). }
  rewrite drop_each_cons, drop_database_no_fault; [|done|done|apply Hall; by left].
  simpl. rewrite IH; simpl.
  - f_equal. f_equal.
    + apply set_eq. intros n.
      rewrite !elem_of_difference, elem_of_union, elem_of_singleton. tauto.
    + unfold Manager.dropped_log. simpl. by rewrite <-!(assoc_L (++)).
  - apply elem_of_difference. split; [done|].
    intros Heq%elem_of_singleton. apply Hnot. rewrite Heq. by left.
  - intros ?. apply Hnot. by right.
  - intros n Hn. apply elem_of_difference. split; [apply Hall; by right|].
    intros Heq%elem_of_singleton. by subst.
Qed.

(** After any [Cleanup] a [Cleanup] does nothing and returns nil. *)
Lemma Cleanup_twice ctx ctx' st :
  Cleanup ctx' (Cleanup ctx st).2 = (None, (Cleanup ctx st).2).
Proof.
  destruct st as [m e]. unfold Manager.Cleanup at 2 3.
  destruct (initialized m) eqn:Hinit.
  - by destruct (drop_each _ _ _) as [failures e1].
  - simpl. unfold Manager.Cleanup. by rewrite Hinit.
Qed.

(** C7.  [Cleanup] on an initialized manager leaves it uninitialized with
    an empty live-set, and a second [Cleanup] returns nil and changes
    nothing, whatever the first one met.  With a valid configuration, in a
    state where the tracked databases and the template exist, and with an
    engine that lets every operation through: [Cleanup] returns nil after
    dropping the tracked databases and then the template (the template
    only, when the live-set is empty), and an [Initialize] after it
    succeeds and creates the template again. *)
Theorem Cleanup_lifecycle (ctx : Go.Context) (m : ManagerState) (e : Engine) :
  initialized m = true ->
  let m1 := {| initialized := false; live := ∅; counter := counter m |} in
  (Cleanup ctx (m, e)).2.1 = m1 /\
  (forall ctx',
     Cleanup ctx' (Cleanup ctx (m, e)).2 = (None, (Cleanup ctx (m, e)).2)) /\
  (invalid cfg = None ->
   well_formed m e ->
   (forall o, faulty ctx o = None) ->
   let e1 := {| databases := databases e ∖ live m ∖ {[TemplateName cfg]};
                log := log e ++ dropped_log (elements (live m))
                             ++ dropped_log [TemplateName cfg] |} in
   Cleanup ctx (m, e) = (None, (m1, e1)) /\
   (live m = ∅ ->
    databases e1 = databases e ∖ {[TemplateName cfg]} /\
    log e1 = log e ++ [(OpenConnection (AdminDBName cfg), None);
                       (TerminateBackends (TemplateName cfg), None);
                       (DropDatabase (TemplateName cfg), None)]) /\
   exists e2,
     Initialize ctx (m1, e1) =
       (None, ({| initialized := true; live := ∅; counter := counter m |}, e2)) /\
     databases e2 = {[TemplateName cfg]} ∪ databases e1).
Proof.
  intros Hinit m1. split; [|split].
  { unfold Manager.Cleanup. rewrite Hinit.
    by destruct (drop_each _ _ _) as [failures e1]. }
  { intros ctx'. apply Cleanup_twice. }
  intros Hvalid Hwf Hok e1.
  destruct (to_drop_spec m e Hwf) as (Hnodup & Hadmin & Hin & Hall).
  assert (Cleanup ctx (m, e) = (None, (m1, e1))) as Hclean.
  { unfold Manager.Cleanup. rewrite Hinit. fold (to_drop m).
    rewrite drop_each_no_fault by (done || apply Hwf).
    unfold m1, e1. f_equal. f_equal. f_equal.
    - apply set_eq. intros n.
      rewrite !elem_of_difference, elem_of_list_to_set, Hin, elem_of_singleton.
      tauto.
    - unfold Manager.to_drop, Manager.dropped_log.
      by rewrite bind_app. }
  split; [done|]. split.
  - intros Hempty. unfold e1. simpl. rewrite Hempty, elements_empty. split.
    + apply set_eq. intros n. rewrite !elem_of_difference.
      pose proof (not_elem_of_empty (C:=gset string) n). tauto.
    + done.
  - destruct Hwf as [Hnames Hadm Htmpl Hlive Hla Hlt].
    assert (AdminDBName cfg ∈ databases e1) as Hadm1.
    { unfold e1. simpl. rewrite !elem_of_difference, elem_of_singleton.
      split; [by split|]. intros Heq. by apply Hnames. }
    assert (TemplateName cfg ∉ databases e1) as Htmpl1.
    { unfold e1. simpl. rewrite !elem_of_difference, elem_of_singleton. tauto. }
    eexists. split.
    + unfold Manager.Initialize. simpl.
      rewrite exec_all_cons, exec_ok by (done || by apply refusal_exists).
      rewrite exec_all_cons, exec_ok; [|done|apply refusal_fresh; exact Htmpl1].
      rewrite exec_all_cons, exec_ok;
        [|done|apply refusal_exists; simpl; apply elem_of_union_l;
               by apply elem_of_singleton].
      rewrite exec_all_cons, exec_ok;
        [|done|apply refusal_exists; simpl; apply elem_of_union_l;
               by apply elem_of_singleton].
      reflexivity.
    + done.
Qed.

End Facts.

(** ** The scenario *)

Import Scenario.

Lemma five_well_formed : well_formed cfg five.1 five.2.
Proof. split; compute_done. Qed.

Lemma ready_well_formed : well_formed cfg ready.1 ready.2.
Proof. split; compute_done. Qed.

(** [ready] and [five] are what the calls lead to. *)
Example ready_reached :
  (Initialize reliable cfg Go.Background (fresh, server)).1 = None /\
  (Initialize reliable cfg Go.Background (fresh, server)).2.1 = ready.1 /\
  databases (Initialize reliable cfg Go.Background (fresh, server)).2.2
    = databases ready.2.
Proof. repeat split; compute_done. Qed.

Example five_reached :
  let create st := (CreateTestDatabase reliable cfg Go.Background "0" st).2 in
  let st := create (create (create (create (create ready)))) in
  st.1 = five.1 /\ databases st.2 = databases five.2.
Proof. split; compute_done. Qed.

(** Three callers with the same nonce, their steps interleaved: three
    names. *)
Example three_names :
  returned_names
    (schedule reliable cfg interleaved (spawn three_callers (fresh, server)))
  = ["bench_test_2_0"; "bench_test_3_0"; "bench_test_1_0"].
Proof. compute_done. Qed.

Lemma CreateTestDatabase_names_distinct_witness :
  NewTemplateManager config = inl (cfg, fresh) /\
  let sys :=
    schedule reliable cfg interleaved (spawn three_callers (fresh, server)) in
  NoDup (returned_names sys) /\
  (forall n, n ∈ returned_names sys ->
     exists k nonce, (0 < k <= counter (shared sys).1)%N /\
                     n = testDBName (TestDBPrefix cfg) k nonce) /\
  (length (returned_names sys) = length three_callers ->
   size (list_to_set (returned_names sys) : gset string)
     = length three_callers).
Proof.
  split; [reflexivity|].
  exact (CreateTestDatabase_names_distinct reliable cfg config fresh server
           three_callers interleaved eq_refl).
Defined.

Lemma lifecycle_errors_witness :
  (initialized fresh = false /\
   CreateTestDatabase reliable cfg Go.Background "0" (fresh, server)
     = (inr NotInitializedError, (fresh, server))) /\
  (initialized ready.1 = true /\
   Initialize reliable cfg Go.Background ready
     = (Some AlreadyInitializedError, ready)).
Proof.
  split; (split; [reflexivity|]).
  - exact (proj1 (lifecycle_errors reliable cfg)
             Go.Background "0" (fresh, server) eq_refl).
  - exact (proj1 (proj2 (lifecycle_errors reliable cfg))
             Go.Background ready eq_refl).
Defined.

Lemma DropTestDatabase_live_set_witness :
  (("bench_test_9_0" ∉ live five.1) /\
   DropTestDatabase reliable cfg Go.Background "bench_test_9_0" five
     = (None, five)) /\
  live (DropTestDatabase reliable cfg Go.Background "bench_test_3_0" five).2.1
    = live five.1 ∖ {["bench_test_3_0"]}.
Proof.
  split; [split; [compute_done|]|].
  - apply (proj1 (DropTestDatabase_live_set reliable cfg)). compute_done.
  - apply (proj2 (proj2 (proj2 (proj2 (DropTestDatabase_live_set reliable cfg))))).
Defined.

(** The scenario of the specification: five tracked databases, one of
    which cannot be dropped. *)
Lemma Cleanup_partial_failure_witness :
  initialized five.1 = true /\
  well_formed cfg five.1 five.2 /\
  exists e1,
    Cleanup (held "bench_test_3_0") cfg Go.Background five =
      (Some (PartialCleanupError
               [("bench_test_3_0",
                 {| failed_op := DropDatabase "bench_test_3_0";
                    cause := "database is being accessed by other users" |})]),
       ({| initialized := false; live := ∅; counter := 5 |}, e1)) /\
    forall n, n ∈ live five.1 -> n ≠ "bench_test_3_0" -> n ∉ databases e1.
Proof.
  split; [reflexivity|]. split; [exact five_well_formed|].
  destruct (Cleanup_partial_failure (held "bench_test_3_0") cfg Go.Background
              five.1 five.2 eq_refl)
    as (failures & e1 & Hclean & _ & _ & Hwf).
  destruct (Hwf five_well_formed) as (_ & _ & _ & Hone).
  exists e1.
  destruct (Hone "bench_test_3_0"
              {| failed_op := DropDatabase "bench_test_3_0";
                 cause := "database is being accessed by other users" |})
    as [Hsingle Hgone].
  - compute_done.
  - reflexivity.
  - intros n _ Hne. unfold Manager.drop_fault, held. simpl.
    destruct (decide (DropDatabase n = DropDatabase "bench_test_3_0"))
      as [Heq|_]; [|reflexivity].
    injection Heq as Heq. contradiction.
  - split; [|exact Hgone]. rewrite Hsingle in Hclean. exact Hclean.
Defined.

Lemma Cleanup_lifecycle_witness :
  initialized five.1 = true /\
  invalid cfg = None /\
  well_formed cfg five.1 five.2 /\
  (forall o, reliable Go.Background o = None) /\
  exists st1,
    Cleanup reliable cfg Go.Background five = (None, st1) /\
    Cleanup reliable cfg Go.Background st1 = (None, st1) /\
    (Initialize reliable cfg Go.Background st1).1 = None.
Proof.
  split; [reflexivity|]. split; [reflexivity|].
  split; [exact five_well_formed|]. split; [reflexivity|].
  destruct (Cleanup_lifecycle reliable cfg Go.Background five.1 five.2 eq_refl)
    as (_ & Htwice & Hrest).
  destruct (Hrest eq_refl five_well_formed (fun _ => eq_refl))
    as (Hclean & _ & e2 & Hinit & _).
  eexists. split; [exact Hclean|]. split.
  - specialize (Htwice Go.Background). rewrite Hclean in Htwice. exact Htwice.
  - by rewrite Hinit.
Defined.

End ManagerSpec.

(** * More on the package *)

Module PqMore.
Import Go Pq Builtin.

(** ** The options of options.go inside [Connect] *)

Lemma range_options_builtin {S : Type} (h : handler S) cs db (s : S) :
  run h (range_options (option_of <$> cs) db) s
  = (Returned tt, settled h cs db s, applied cs db).
Proof.
  revert s. induction cs as [|c cs IH]; intros s; [done|].
  assert (run h (range_options (option_of <$> c :: cs) db) s =
          let '(x, s1) := handle h (setter c db) s in
          let '(o, s2, tr) := run h (range_options (option_of <$> cs) db) s1 in
          (o, s2, Entry (setter c db) x :: tr)) as ->.
  { by destruct c. }
  unfold settled, applied. simpl.
  destruct (handle h (setter c db) s) as [[] s1]. by rewrite IH.
Qed.

Lemma range_options_nil {S : Type} (h : handler S) before after db (s : S) :
  run h (range_options ((option_of <$> before) ++ None :: after) db) s
  = (Panicked nil_dereference, settled h before db s, applied before db).
Proof.
  revert s. induction before as [|c cs IH]; intros s; [done|].
  assert (run h (range_options ((option_of <$> c :: cs) ++ None :: after) db) s =
          let '(x, s1) := handle h (setter c db) s in
          let '(o, s2, tr) :=
            run h (range_options ((option_of <$> cs) ++ None :: after) db) s1 in
          (o, s2, Entry (setter c db) x :: tr)) as ->.
  { by destruct c. }
  unfold settled, applied. simpl.
  destruct (handle h (setter c db) s) as [[] s1]. by rewrite IH.
Qed.

(** X1.  [Connect] on a provider built with options of options.go: after
    [sql.Open] has given a pool, the setter of every option is called
    once on that pool, in the order of the options, then the pool is
    pinged; [Close] is called after a failed ping and at no other time,
    and when [sql.Open] fails no setter is called at all. *)
Theorem Connect_applies_options {S : Type} (h : handler S) (s : S)
    (f : string -> string) (cs : list setting) (ctx : Context)
    (databaseName : string) :
  let open := sql_Open "postgres" (f databaseName) in
  let result :=
    run h (Connect (NewConnectionProvider (Some f) (option_of <$> cs))
                   ctx databaseName) s in
  match handle h open s with
  | (inr err, s1) =>
      result = (Returned (None, Some (Wrap "failed to open database" err)),
                s1, [Entry open (inr err)])
  | (inl db, s1) =>
      let ping := DB_PingContext db ctx in
      match handle h ping (settled h cs db s1) with
      | (None, s3) =>
          result = (Returned (Some {| DB := db |}, None), s3,
                    Entry open (inl db) :: applied cs db ++ [Entry ping None])
      | (Some perr, s3) =>
          result = (Returned (None, Some (Wrap "failed to ping database" perr)),
                    (handle h (DB_Close db) s3).2,
                    Entry open (inl db) :: applied cs db ++
                    [Entry ping (Some perr);
                     Entry (DB_Close db) (handle h (DB_Close db) s3).1])
      end
  end.
Proof.
  intros open result. unfold result, open, Connect, NewConnectionProvider.
  simpl.
  destruct (handle h (sql_Open "postgres" (f databaseName)) s) as [[db|err] s1];
    simpl; [|done].
  unfold mbind, prog_bind. rewrite PqSpec.run_bind, range_options_builtin.
  simpl.
  destruct (handle h (DB_PingContext db ctx) (settled h cs db s1))
    as [[perr|] s3]; simpl; [|done].
  by destruct (handle h (DB_Close db) s3) as [cerr s4].
Qed.

(** X2.  A nil option among options of options.go: when [sql.Open] gives
    a pool, [Connect] applies the options that come before the nil one and
    panics there; the pool is not pinged and is not closed.  When
    [sql.Open] fails the nil option is not reached and [Connect] returns
    the error. *)
Theorem Connect_nil_option {S : Type} (h : handler S) (s : S)
    (f : string -> string) (before : list setting)
    (after : list DatabaseConnectionOption) (ctx : Context)
    (databaseName : string) :
  let open := sql_Open "postgres" (f databaseName) in
  let options := (option_of <$> before) ++ None :: after in
  let result :=
    run h (Connect (NewConnectionProvider (Some f) options) ctx databaseName) s in
  match handle h open s with
  | (inr err, s1) =>
      result = (Returned (None, Some (Wrap "failed to open database" err)),
                s1, [Entry open (inr err)])
  | (inl db, s1) =>
      result = (Panicked nil_dereference, settled h before db s1,
                Entry open (inl db) :: applied before db)
  end.
Proof.
  intros open options result.
  unfold result, options, open, Connect, NewConnectionProvider. simpl.
  destruct (handle h (sql_Open "postgres" (f databaseName)) s) as [[db|err] s1];
    simpl; [|done].
  unfold mbind, prog_bind. by rewrite PqSpec.run_bind, range_options_nil.
Qed.

(** ** The errors [Connect] returns *)

Lemma Is_refl e : Is e e = true.
Proof. destruct e; cbn [Is]; by rewrite bool_decide_eq_true_2. Qed.

Lemma Is_Wrap msg cause target :
  Is cause target = true -> Is (Wrap msg cause) target = true.
Proof. intros H. cbn [Is]. rewrite H. apply orb_true_r. Qed.

(** X3.  An error returned by [Connect] comes with no connection and
    wraps the error [database/sql] answered, that of [sql.Open] or that of
    the ping: [errors.Unwrap] gives it back, and whatever [errors.Is]
    finds in it, it finds in the error returned. *)
Theorem Connect_error_wraps {S : Type} (h : handler S) (s : S)
    (p : ConnectionProvider) (f : string -> string) (ctx : Context)
    (databaseName : string) (conn : option DatabaseConnection) (err : error)
    (s' : S) (tr : list entry) :
  connStringFunc p = Some f ->
  Forall returns_option (options p) ->
  run h (Connect (Some p) ctx databaseName) s
    = (Returned (conn, Some err), s', tr) ->
  conn = None /\
  exists cause,
    Unwrap err = Some cause /\
    Is err cause = true /\
    (forall target, Is cause target = true -> Is err target = true) /\
    ((handle h (sql_Open "postgres" (f databaseName)) s).1 = inr cause \/
     exists db s2, (handle h (DB_PingContext db ctx) s2).1 = Some cause).
Proof.
  intros Hf Hopts Hrun.
  pose proof (PqSpec.Connect_runs h s p f ctx databaseName Hf Hopts) as Hcase.
  rewrite Hrun in Hcase. clear Hrun.
  remember (Returned (conn, Some err), s', tr) as out eqn:Hout.
  destruct Hcase as [e s1 Hopen|db s1 pre s2 perr s3 cerr s4 Hopen Hping _
                    |db s1 pre s2 s3 _ _]; [| |discriminate].
  - injection Hout as <- <- _ _. split; [done|]. exists e.
    split; [done|]. split; [apply Is_Wrap, Is_refl|].
    split; [intros target; apply Is_Wrap|]. left. by rewrite Hopen.
  - injection Hout as <- <- _ _. split; [done|]. exists perr.
    split; [done|]. split; [apply Is_Wrap, Is_refl|].
    split; [intros target; apply Is_Wrap|]. right. exists db, s2.
    by rewrite Hping.
Qed.

(** The test "Connect respects context cancellation": the error wraps
    [context.Canceled]. *)
Lemma Connect_error_wraps_witness :
  let err := Wrap "failed to ping database" Canceled in
  let s' := {| Sim.opened := ["postgres://localhost/postgres"];
               Sim.closed := [0] |} in
  let tr := [Entry (sql_Open "postgres" "postgres://localhost/postgres") (inl 0);
             Entry (DB_SetMaxOpenConns 0 25) tt;
             Entry (DB_SetMaxIdleConns 0 10) tt;
             Entry (DB_PingContext 0 (WithCancel true)) (Some Canceled);
             Entry (DB_Close 0) None] in
  connStringFunc Sim.pooled_provider = Some Sim.connStringFunc /\
  Forall returns_option (options Sim.pooled_provider) /\
  run (Sim.sql Sim.localhost)
      (Connect (Some Sim.pooled_provider) (WithCancel true) "postgres")
      Sim.init = (Returned (None, Some err), s', tr) /\
  (@None DatabaseConnection = None /\
   exists cause,
     Unwrap err = Some cause /\
     Is err cause = true /\
     (forall target, Is cause target = true -> Is err target = true) /\
     ((handle (Sim.sql Sim.localhost)
              (sql_Open "postgres" (Sim.connStringFunc "postgres")) Sim.init).1
        = inr cause \/
      exists db s2,
        (handle (Sim.sql Sim.localhost) (DB_PingContext db (WithCancel true)) s2).1
          = Some cause)).
Proof.
  intros err s' tr.
  split; [reflexivity|]. split; [exact PqSpec.pooled_provider_options|].
  split; [reflexivity|].
  exact (Connect_error_wraps (Sim.sql Sim.localhost) Sim.init
           Sim.pooled_provider Sim.connStringFunc (WithCancel true)
           "postgres" None err s' tr eq_refl PqSpec.pooled_provider_options
           eq_refl).
Defined.

End PqMore.

(** * The helpers of benchmark_test.go *)

Module BenchSpec.
Import Bench.

(** ** createSampleMigrations *)

Lemma allMigrations_length : length allMigrations = 5.
Proof. reflexivity. Qed.

Lemma allMigrations_filenames : NoDup (filename <$> allMigrations).
Proof. compute_done. Qed.

Section AnyFileSystem.

Variable FS : Type.
Variable WriteFile : string -> string -> Z -> FS -> option Go.error * FS.

Abbreviation range_migrations := (Bench.range_migrations FS WriteFile).
Abbreviation createSampleMigrations :=
  (Bench.createSampleMigrations FS WriteFile).

(** The files to write are the first [clamp numTables] of the table. *)
Lemma createSampleMigrations_take tempDir numTables fs :
  createSampleMigrations tempDir numTables fs
  = range_migrations tempDir (take (clamp numTables) allMigrations) fs.
Proof.
  unfold Bench.createSampleMigrations, clamp. rewrite allMigrations_length.
  do 2 f_equal.
  destruct (Z.gtb_spec numTables (Z.of_nat 5)) as [Hgt|Hle].
  - destruct (Z.ltb_spec (Z.of_nat 5) 1); lia.
  - destruct (Z.ltb_spec numTables 1); lia.
Qed.


End AnyFileSystem.


(** ** createSampleMigrations on a file system in memory *)

Section InMemory.

Variable unwritable : string -> option (Go.error * option string).
Variable tempDir : string.

Abbreviation range_migrations :=
  (Bench.range_migrations _ (WriteFile unwritable) tempDir).
Abbreviation createSampleMigrations :=
  (Bench.createSampleMigrations _ (WriteFile unwritable) tempDir).
Abbreviation path_of := (Bench.path_of tempDir).

(** The files after the migrations of a list have been written. *)
Abbreviation written_to files ms :=
  (foldl (fun fs m => <[path_of m := content m]> fs) files ms).

Lemma path_of_inj m1 m2 : path_of m1 = path_of m2 -> filename m1 = filename m2.
Proof.
  unfold Bench.path_of. intros H%(inj (String.append tempDir)).
  by injection H.
Qed.

Lemma range_migrations_writable ms (files : gmap string string) :
  Forall (fun m => unwritable (path_of m) = None) ms ->
  range_migrations ms files = (None, written_to files ms).
Proof.
  intros Hms. revert files.
  induction Hms as [|m ms Hm _ IH]; intros files; [done|].
  simpl. fold (path_of m). unfold WriteFile at 1. rewrite Hm. apply IH.
Qed.

Lemma range_migrations_unwritable before m after err leftover
    (files : gmap string string) :
  Forall (fun m => unwritable (path_of m) = None) before ->
  unwritable (path_of m) = Some (err, leftover) ->
  range_migrations (before ++ m :: after) files
  = (Some err,
     match leftover with
     | Some part => <[path_of m := part]> (written_to files before)
     | None => written_to files before
     end).
Proof.
  intros Hms Hm. revert files.
  induction Hms as [|m0 ms Hm0 _ IH]; intros files; simpl.
  - fold (path_of m). unfold WriteFile. by rewrite Hm.
  - fold (path_of m0). unfold WriteFile at 1. rewrite Hm0. apply IH.
Qed.

Lemma written_to_other ms (files : gmap string string) path :
  (forall m, m ∈ ms -> path ≠ path_of m) ->
  written_to files ms !! path = files !! path.
Proof.
  revert files. induction ms as [|m ms IH]; intros files Hpath; [done|].
  simpl. rewrite IH.
  - apply lookup_insert_ne. intros Heq. eapply Hpath; [by left|done].
  - intros m' Hm'. apply Hpath. by right.
Qed.

Lemma written_to_lookup ms (files : gmap string string) m :
  NoDup (filename <$> ms) -> m ∈ ms ->
  written_to files ms !! path_of m = Some (content m).
Proof.
  revert files. induction ms as [|m0 ms IH]; intros files Hnodup Hm.
  { by apply elem_of_nil in Hm. }
  apply NoDup_cons in Hnodup as [Hm0 Hnodup]. simpl.
  apply elem_of_cons in Hm as [->|Hm]; [|by apply IH].
  rewrite written_to_other; [apply lookup_insert_eq|].
  intros m' Hm' Heq%path_of_inj. apply Hm0. rewrite Heq.
  by apply list_elem_of_fmap_2.
Qed.

Lemma take_filenames k : NoDup (filename <$> take k allMigrations).
Proof.
  rewrite fmap_take. eapply sublist_NoDup; [|apply sublist_take].
  apply allMigrations_filenames.
Qed.

(** X5.  When every file it has to write can be written,
    [createSampleMigrations] returns nil; afterwards each of the first
    [clamp numTables] migrations is in the directory under its file name
    with its content, and every other file is as it was. *)
Theorem createSampleMigrations_writes (numTables : Z)
    (files : gmap string string) :
  (forall m, m ∈ take (clamp numTables) allMigrations ->
             unwritable (path_of m) = None) ->
  let '(err, files') := createSampleMigrations numTables files in
  err = None /\
  (forall m, m ∈ take (clamp numTables) allMigrations ->
             files' !! path_of m = Some (content m)) /\
  (forall path,
     (forall m, m ∈ take (clamp numTables) allMigrations -> path ≠ path_of m) ->
     files' !! path = files !! path).
Proof.
  intros Hok. rewrite createSampleMigrations_take.
  rewrite range_migrations_writable by by apply Forall_forall.
  split; [done|]. split.
  - intros m Hm. apply written_to_lookup; [apply take_filenames|done].
  - intros path Hpath. by apply written_to_other.
Qed.

(** X6.  When a file cannot be written, [createSampleMigrations] stops
    there and returns the error of that write: the migrations before it
    are in the directory with their content, the file that failed holds
    what the failed write left of it, and the files of the migrations
    after it and every other file are as they were. *)
Theorem createSampleMigrations_stops (numTables : Z)
    (files : gmap string string) (before after : list migration)
    (m : migration) (e : Go.error) (leftover : option string) :
  take (clamp numTables) allMigrations = before ++ m :: after ->
  (forall m', m' ∈ before -> unwritable (path_of m') = None) ->
  unwritable (path_of m) = Some (e, leftover) ->
  let '(err, files') := createSampleMigrations numTables files in
  err = Some e /\
  (forall m', m' ∈ before -> files' !! path_of m' = Some (content m')) /\
  files' !! path_of m = from_option Some (files !! path_of m) leftover /\
  (forall m', m' ∈ after -> files' !! path_of m' = files !! path_of m') /\
  (forall path,
     path ≠ path_of m ->
     (forall m', m' ∈ before -> path ≠ path_of m') ->
     files' !! path = files !! path).
Proof.
  intros Htake Hbefore Hm. rewrite createSampleMigrations_take, Htake.
  rewrite (range_migrations_unwritable before m after e leftover)
    by (done || by apply Forall_forall).
  pose proof (take_filenames (clamp numTables)) as Hnodup.
  rewrite Htake, fmap_app, fmap_cons in Hnodup.
  apply NoDup_app in Hnodup as (Hnodup & Hdisjoint & [Hm_after _]%NoDup_cons).
  assert (forall m', m' ∈ before -> path_of m ≠ path_of m') as Hm_before.
  { intros m' Hm' Heq%path_of_inj. apply (Hdisjoint (filename m')).
    - by apply list_elem_of_fmap_2.
    - rewrite <-Heq. by left. }
  assert (forall (files0 : gmap string string) path,
            path ≠ path_of m ->
            match leftover with
            | Some part => <[path_of m := part]> files0
            | None => files0
            end !! path = files0 !! path) as Hleft.
  { intros files0 path Hpath. destruct leftover; [|done].
    by apply lookup_insert_ne. }
  split; [done|]. split; [|split; [|split]].
  - intros m' Hm'. rewrite Hleft by (apply not_eq_sym; by apply Hm_before).
    by apply written_to_lookup.
  - destruct leftover as [part|]; simpl.
    + apply lookup_insert_eq.
    + by apply written_to_other.
  - intros m' Hm'.
    assert (filename m' ≠ filename m) as Hne.
    { intros Heq. apply Hm_after. rewrite <-Heq. by apply list_elem_of_fmap_2. }
    rewrite Hleft by (intros Heq%path_of_inj; done).
    apply written_to_other.
    intros m0 Hm0 Heq%path_of_inj. apply (Hdisjoint (filename m0)).
    + by apply list_elem_of_fmap_2.
    + rewrite <-Heq. right. by apply list_elem_of_fmap_2.
  - intros path Hpath Hbefore'. rewrite Hleft by done.
    by apply written_to_other.
Qed.

End InMemory.

(** Three tables asked for, in a directory that can be written. *)
Lemma createSampleMigrations_writes_witness :
  let unwritable := fun _ : string => @None (Go.error * option string) in
  (forall m, m ∈ take (clamp 3) allMigrations ->
             unwritable (path_of "/tmp/bench" m) = None) /\
  let '(err, files') :=
    Bench.createSampleMigrations _ (WriteFile unwritable) "/tmp/bench" 3 ∅ in
  err = None /\
  (forall m, m ∈ take (clamp 3) allMigrations ->
             files' !! path_of "/tmp/bench" m = Some (content m)) /\
  (forall path,
     (forall m, m ∈ take (clamp 3) allMigrations ->
                path ≠ path_of "/tmp/bench" m) ->
     files' !! path = (∅ : gmap string string) !! path).
Proof.
  intros unwritable. split; [done|].
  exact (createSampleMigrations_writes unwritable "/tmp/bench" 3 ∅
           (fun _ _ => eq_refl)).
Defined.

Lemma third_unwritable_before m :
  m ∈ take 2 allMigrations ->
  third_unwritable (path_of "/tmp/bench" m) = None.
Proof.
  simpl. intros Hm.
  repeat (apply elem_of_cons in Hm as [->|Hm]; [compute_done|]).
  by apply elem_of_nil in Hm.
Qed.

(** Five tables asked for, in a directory where the third file cannot be
    written. *)
Lemma createSampleMigrations_stops_witness :
  let before := take 2 allMigrations in
  let m := nth 2 allMigrations {| filename := ""; content := "" |} in
  let after := drop 3 allMigrations in
  let e := Go.DriverError "open: permission denied" in
  take (clamp 5) allMigrations = before ++ m :: after /\
  (forall m', m' ∈ before ->
              third_unwritable (path_of "/tmp/bench" m') = None) /\
  third_unwritable (path_of "/tmp/bench" m) = Some (e, None) /\
  let '(err, files') :=
    Bench.createSampleMigrations _ (WriteFile third_unwritable)
                                 "/tmp/bench" 5 ∅ in
  err = Some e /\
  (forall m', m' ∈ before ->
              files' !! path_of "/tmp/bench" m' = Some (content m')) /\
  files' !! path_of "/tmp/bench" m
    = from_option Some ((∅ : gmap string string) !! path_of "/tmp/bench" m)
                  None /\
  (forall m', m' ∈ after ->
              files' !! path_of "/tmp/bench" m'
                = (∅ : gmap string string) !! path_of "/tmp/bench" m') /\
  (forall path,
     path ≠ path_of "/tmp/bench" m ->
     (forall m', m' ∈ before -> path ≠ path_of "/tmp/bench" m') ->
     files' !! path = (∅ : gmap string string) !! path).
Proof.
  intros before m after e.
  split; [reflexivity|]. split; [exact third_unwritable_before|].
  split; [compute_done|].
  exact (createSampleMigrations_stops third_unwritable "/tmp/bench" 5 ∅
           before after m e None eq_refl third_unwritable_before eq_refl).
Defined.

(** ** The names of the concurrent benchmark *)

Lemma pretty_Z_free (z : Z) : Manager.free_of "_" (pretty z).
Proof.
  destruct z as [|p|p]; unfold pretty, pretty_Z.
  - by repeat split.
  - apply ManagerSpec.pretty_N_free.
  - split; [done|]. apply ManagerSpec.pretty_N_free.
Qed.

(** Two names with different counters are different, whatever the clock
    values and the process ids. *)
Lemma concurrentDBName_inj c1 t1 p1 c2 t2 p2 :
  concurrentDBName c1 t1 p1 = concurrentDBName c2 t2 p2 -> c1 = c2.
Proof.
  unfold concurrentDBName.
  intros H%(inj (String.append "bench_trad_conc_")).
  apply (inj pretty).
  eapply (ManagerSpec.first_occurrence "_"); [apply pretty_Z_free..|exact H].
Qed.

(** A number printed in front of an underscore can be read back. *)
Lemma field_inj (a b : Z) (s t : string) :
  pretty a +:+ "_" +:+ s = pretty b +:+ "_" +:+ t -> a = b /\ s = t.
Proof.
  intros H.
  assert (a = b) as ->.
  { apply (inj pretty).
    eapply (ManagerSpec.first_occurrence "_"); [apply pretty_Z_free..|exact H]. }
  split; [done|]. apply (inj (String.append (pretty b))) in H. by injection H.
Qed.

(** X8.  The database names of the traditional bulk benchmark can be read
    back: two names are equal only when the iteration, the index of the
    database, the clock value and the process id are all equal, so that
    the databases of one run have distinct names even when the clock does
    not advance. *)
Theorem bulkDBName_inj (i1 j1 t1 p1 i2 j2 t2 p2 : Z) :
  bulkDBName i1 j1 t1 p1 = bulkDBName i2 j2 t2 p2 ->
  i1 = i2 /\ j1 = j2 /\ t1 = t2 /\ p1 = p2.
Proof.
  unfold bulkDBName.
  intros H%(inj (String.append "bench_bulk_trad_")).
  apply field_inj in H as [-> H].
  apply field_inj in H as [-> H].
  apply field_inj in H as [-> H].
  by apply (inj pretty) in H as ->.
Qed.

Lemma bulkDBName_inj_witness :
  bulkDBName 0 1 7 4242 = bulkDBName 0 1 7 4242 /\
  (0 = 0 /\ 1 = 1 /\ 7 = 7 /\ 4242 = 4242)%Z.
Proof.
  split; [reflexivity|].
  exact (bulkDBName_inj 0 1 7 4242 0 1 7 4242 eq_refl).
Defined.

Lemma int64_idemp x y : int64 (int64 x + y) = int64 (x + y).
Proof.
  unfold int64. f_equal.
  replace ((x + 2 ^ 63) mod 2 ^ 64 - 2 ^ 63 + y + 2 ^ 63)%Z
    with ((x + 2 ^ 63) mod 2 ^ 64 + y)%Z by lia.
  rewrite Z.add_mod_idemp_l by lia. f_equal. lia.
Qed.

Lemma int64_distinct x k :
  (0 < k < 2 ^ 64)%Z -> int64 (x + k) ≠ int64 x.
Proof.
  unfold int64. intros Hk Heq.
  assert ((x + k + 2 ^ 63) mod 2 ^ 64 = (x + 2 ^ 63) mod 2 ^ 64)%Z as Hmod
    by lia.
  pose proof (Z.div_mod (x + k + 2 ^ 63) (2 ^ 64)) as H1.
  pose proof (Z.div_mod (x + 2 ^ 63) (2 ^ 64)) as H2.
  rewrite Hmod in H1.
  change (2 ^ 64)%Z with 18446744073709551616%Z in *.
  change (2 ^ 63)%Z with 9223372036854775808%Z in *.
  lia.
Qed.

(** The counter behind the [k]-th name is the counter before, plus [k],
    as an [int64]. *)
Lemma dbNames_counter reads c name :
  name ∈ dbNames c reads ->
  exists k timestamp pid,
    (1 <= k <= Z.of_nat (length reads))%Z /\
    name = concurrentDBName (int64 (c + k)) timestamp pid.
Proof.
  revert c. induction reads as [|[timestamp pid] rest IH]; intros c Hname.
  { by apply elem_of_nil in Hname. }
  simpl in Hname. apply elem_of_cons in Hname as [->|Hname].
  - exists 1%Z, timestamp, pid. split; [simpl; lia|done].
  - destruct (IH _ Hname) as (k & ts & p & Hk & ->).
    exists (1 + k)%Z, ts, p. split; [simpl length; lia|].
    unfold AddInt64. rewrite int64_idemp. do 2 f_equal. lia.
Qed.

(** X7.  The database names of the concurrent traditional benchmark are
    pairwise distinct, whatever the value of [concurrentDBCounter] at the
    start and even when all iterations read the same clock value and
    process id, as long as there are fewer than 2^64 iterations: the
    atomic counter alone tells them apart. *)
Theorem dbNames_distinct (concurrentDBCounter : Z) (reads : list (Z * Z)) :
  (Z.of_nat (length reads) < 2 ^ 64)%Z ->
  NoDup (dbNames concurrentDBCounter reads).
Proof.
  revert concurrentDBCounter.
  induction reads as [|[timestamp pid] rest IH]; intros c Hlen.
  { constructor. }
  simpl. constructor.
  - intros (k & ts & p & Hk & Heq%concurrentDBName_inj)%dbNames_counter.
    unfold AddInt64 in Heq. rewrite int64_idemp in Heq.
    symmetry in Heq. revert Heq.
    replace (c + 1 + k)%Z with (c + (1 + k))%Z by lia.
    rewrite <-(int64_idemp c (1 + k)), <-(int64_idemp c 1).
    replace (int64 c + (1 + k))%Z with (int64 c + 1 + k)%Z by lia.
    apply int64_distinct. simpl length in Hlen. lia.
  - apply IH. simpl length in Hlen. lia.
Qed.

(** Three iterations at the same clock value in one process, the counter
    about to overflow. *)
Lemma dbNames_distinct_witness :
  let reads := [(1700000000000000000, 4242); (1700000000000000000, 4242);
                (1700000000000000000, 4242)]%Z in
  (Z.of_nat (length reads) < 2 ^ 64)%Z /\
  NoDup (dbNames (2 ^ 63 - 2) reads).
Proof.
  intros reads. split; [done|].
  exact (dbNames_distinct (2 ^ 63 - 2) reads eq_refl).
Defined.

Example dbNames_overflow :
  dbNames (2 ^ 63 - 2) [(7, 1); (7, 1); (7, 1)]%Z
  = ["bench_trad_conc_9223372036854775807_7_1";
     "bench_trad_conc_-9223372036854775808_7_1";
     "bench_trad_conc_-9223372036854775807_7_1"].
Proof. reflexivity. Qed.

End BenchSpec.
